(** * Experiment viewer: context resolution and normalization

    A shallow embedding of the server routes of the experiment viewer
    ([frontend/src/routes/api/experiments/...]) and the properties of the
    context normalizer, the artifact resolver, the repository scanner and
    the design-asset route, followed by the statistics, stage-context and
    test-result routes and the helpers of the pages that call them.

    JavaScript values are embedded as a Rocq inductive type; objects are
    finite maps from property names to values, so two objects are equal
    when they have the same properties with the same values (property
    order is not observed by any function modelled here). *)

From Stdlib Require Import Floats.PrimFloat DecimalString Ascii ZArith.
From stdpp Require Import gmap strings list fin_maps sorting.

Set Warnings "-register-all".

(** ** JavaScript values *)

Module JS.

(** What [JSON.parse] produces, extended with what the routes build from
    it: [undefined] (an object literal may hold a property whose value is
    [undefined]) and arrays carrying named properties besides their
    elements (an assignment [a.k = v] on an array adds one).

    A string is the sequence of its code units, one [ascii] each; no
    function below inspects a character other than to compare it. *)
Inductive value : Type :=
| VUndefined
| VNull
| VBool (b : bool)
| VNum (n : float)
| VStr (s : string)
| VArr (elems : list value) (named : gmap string value)
| VObj (props : gmap string value).

(** [ToBoolean]: [undefined], [null], [false], [0], [-0], [NaN] and the
    empty string are falsy, everything else is truthy.  This is the test
    behind [!x], [x || y] and [if (x)]. *)
Definition truthy (v : value) : bool :=
  match v with
  | VUndefined | VNull => false
  | VBool b => b
  | VNum n => negb (PrimFloat.is_zero n || PrimFloat.is_nan n)
  | VStr s => negb (String.eqb s "")
  | VArr _ _ | VObj _ => true
  end.

Definition nullish (v : value) : bool :=
  match v with
  | VUndefined | VNull => true
  | _ => false
  end.

(** [typeof v === 'object' && v !== null]: the values that accept a new
    property. *)
Definition is_object (v : value) : bool :=
  match v with
  | VArr _ _ | VObj _ => true
  | _ => false
  end.

(** The canonical numeric string of an array index. *)
Definition index_key (i : nat) : string :=
  NilZero.string_of_uint (Nat.to_uint i).

(** The own enumerable properties of a value, as the spread [{...v}]
    copies them: the properties of an object; the elements of an array
    under their indices and its named properties; the code units of a
    string under their indices; nothing for the other primitives, [null]
    and [undefined]. *)
Definition own_props (v : value) : gmap string value :=
  match v with
  | VObj props => props
  | VArr elems named =>
      named ∪ list_to_map (imap (λ i x, (index_key i, x)) elems)
  | VStr s =>
      list_to_map
        (imap (λ i c, (index_key i, VStr (String c EmptyString)))
              (String.list_ascii_of_string s))
  | _ => ∅
  end.

(** The property read [v.k] on a receiver that is neither [null] nor
    [undefined]: the own property when there is one, [undefined] when
    not.  The names read by the routes ([state], [stage_outputs],
    [idea], ...) are none of [length] and the members of the built-in
    prototypes, the only properties a parsed document has that are not
    its own. *)
Definition get_prop (v : value) (k : string) : value :=
  default VUndefined (own_props v !! k).

(** The optional chain [v?.k]. *)
Definition get_prop_opt (v : value) (k : string) : value :=
  if nullish v then VUndefined else get_prop v k.

(** [a || b] and [a ?? b]. *)
Definition js_or (a b : value) : value := if truthy a then a else b.
Definition js_coalesce (a b : value) : value := if nullish a then b else a.

(** Exceptions: [TypeError] from the language itself, [SystemError] from
    a rejected file-system call, [SyntaxError] from [JSON.parse]. *)
Inductive error := TypeError | SystemError | SyntaxError.

Inductive result (A : Type) : Type :=
| Ok (a : A)
| Throw (e : error).
Arguments Ok {A} a.
Arguments Throw {A} e.

#[global] Instance result_ret : MRet result := λ A, Ok.
#[global] Instance result_bind : MBind result := λ A B f r,
  match r with
  | Ok a => f a
  | Throw e => Throw e
  end.

(** The property read [v.k] on any receiver: reading a property of
    [null] or [undefined] throws. *)
Definition member (v : value) (k : string) : result value :=
  if nullish v then Throw TypeError else Ok (get_prop v k).

(** The assignment [v.k = x] in strict code (a module is strict code),
    for a name [k] that is not an array index: an object or an array
    takes the property; a primitive cannot, and the assignment throws, as
    it does on [null] and [undefined]. *)
Definition set_prop (v : value) (k : string) (x : value) : result value :=
  match v with
  | VObj props => Ok (VObj (<[k := x]> props))
  | VArr elems named => Ok (VArr elems (<[k := x]> named))
  | _ => Throw TypeError
  end.

(** An object literal [{k1: v1, ..., kn: vn}]. *)
Definition object (fields : list (string * value)) : value :=
  VObj (list_to_map fields).

End JS.

Import JS.

(** ** Context normalizer ([experiments/[id]/+server.ts]) *)

Module Normalizer.

(** [normalizeContext]: populate [stage_outputs] from the direct state
    properties where an entry is missing.  The three conditional
    assignments act on [stageOutputs], which is [state.stage_outputs]
    itself when that is truthy and a fresh object when not; a parsed
    document is a tree, so the update in place is seen only through the
    returned context and is modelled by passing the updated value on. *)
Definition normalizeContext (context : value) : result value :=
  if negb (truthy (get_prop_opt context "state")) then Ok context else
  let state := get_prop context "state" in
  let stageOutputs := js_or (get_prop state "stage_outputs") (object []) in
  stageOutputs ←
    (if negb (truthy (get_prop stageOutputs "idea_development"))
        && truthy (get_prop state "idea")
     then set_prop stageOutputs "idea_development"
            (object
               [("idea", get_prop state "idea");
                ("research", get_prop state "research");
                ("final_validation",
                  js_or (get_prop state "research_final")
                        (get_prop state "research"));
                ("legal_insights",
                  js_coalesce (get_prop state "legal_insights") VUndefined);
                ("refinement_feedback", get_prop state "refinement_feedback")])
     else Ok stageOutputs);
  stageOutputs ←
    (if negb (truthy (get_prop stageOutputs "prototyping"))
        && truthy (get_prop state "prototype")
     then set_prop stageOutputs "prototyping"
            (object
               [("architecture", get_prop state "architecture");
                ("design", get_prop state "design");
                ("final_designs", get_prop state "final_designs");
                ("prototype", get_prop state "prototype")])
     else Ok stageOutputs);
  stageOutputs ←
    (if negb (truthy (get_prop stageOutputs "pitch"))
        && truthy (get_prop state "pitch")
     then set_prop stageOutputs "pitch"
            (object
               [("marketing_strategies", get_prop state "marketing_strategies");
                ("pitch_deck", get_prop state "pitch")])
     else Ok stageOutputs);
  Ok (VObj (<["state" := VObj (<["stage_outputs" := stageOutputs]>
                                 (own_props state))]>
              (own_props context))).

End Normalizer.

Import Normalizer.
Arguments normalizeContext : simpl never.


(** ** String and array helpers of the routes *)

Module Str.

(** [s.startsWith(p)] *)
Definition startsWith (s p : string) : bool := String.prefix p s.

(** [s.endsWith(p)] *)
Definition endsWith (s p : string) : bool :=
  String.prefix (String.rev p) (String.rev s).

(** [s.includes(p)] on strings: [p] occurs at some position of [s]. *)
Fixpoint includes (s p : string) : bool :=
  String.prefix p s ||
  match s with
  | EmptyString => false
  | String _ s' => includes s' p
  end.

(** [l.includes(x)] on an array of strings. *)
Definition array_includes (l : list string) (x : string) : bool :=
  existsb (String.eqb x) l.

(** One code unit of [s.toLowerCase()], for code units below 256: the
    letters A to Z and the upper-case letters of the Latin-1 block. *)
Definition lower_unit (c : ascii) : ascii :=
  let n := nat_of_ascii c in
  if (65 <=? n) && (n <=? 90) then ascii_of_nat (n + 32)
  else if (192 <=? n) && (n <=? 222) && negb (n =? 215) then ascii_of_nat (n + 32)
  else c.

Fixpoint toLowerCase (s : string) : string :=
  match s with
  | EmptyString => EmptyString
  | String c s' => String (lower_unit c) (toLowerCase s')
  end.

(** [s.split('.').pop()]: what follows the last dot, or all of [s]. *)
Fixpoint last_segment (s acc : string) : string :=
  match s with
  | EmptyString => acc
  | String c s' =>
      if Ascii.eqb c "." then last_segment s' EmptyString
      else last_segment s' (acc +:+ String c EmptyString)
  end.

End Str.

(** ** The host: file system below the experiments directory *)

Module Host.

(** A path is the list of segments given to [join] after
    [EXPERIMENTS_DIR]; how the platform resolves them is part of the
    functions below. *)
Definition path := list string.

Record dirent := Dirent { name : string; isDirectory : bool }.

(** The calls of [fs/promises] the routes make.  [readdir] lists the
    entries of a directory in the order the platform returns them ([name]
    gives the plain listing); [stat] gives [mtime.toISOString()];
    [readJSON p] is [JSON.parse(await readFile(p, 'utf-8'))], which throws
    when the file cannot be read or is not JSON.  [localeCompare] is
    [String.prototype.localeCompare], whose order is the collation of the
    process locale. *)
Record t := {
  readdir : path → result (list dirent);
  stat : path → result string;
  readJSON : path → result value;
  access : path → result unit;
  readFile : path → result string;
  localeCompare : string → string → Z;
}.

End Host.

(** ** Responses *)

Module Http.

Inductive kind := full | stage_run.

(** The summary both experiment routes build. *)
Record experiment := Experiment {
  id : string;
  type : kind;
  hasStatistics : bool;
  hasCompleteContext : bool;
  hasResults : bool;
  contextFiles : list string;
  timestamp : string;
}.

(** What [experiments/[id]] adds to the summary: [{...experiment, context}],
    [{...experiment, results}] or nothing. *)
Inductive attachment :=
| NoAttachment
| Context (context : value)
| Results (results : value).

Inductive body :=
| ExperimentList (experiments : list experiment)
| ExperimentDetail (e : experiment) (subfolders : list string) (a : attachment)
| ErrorBody (message : string).

(** [json(body, {status})], [new Response(buffer, {headers})] (of the
    headers only [Content-Type] varies and is kept) and the response
    SvelteKit makes of a thrown [error(status, message)]. *)
Inductive response :=
| Json (status : nat) (b : body)
| Image (buffer : string) (contentType : string)
| HttpError (status : nat) (message : string).

Definition status_of (r : response) : nat :=
  match r with
  | Json status _ => status
  | Image _ _ => 200
  | HttpError status _ => status
  end.

(** [try { ... } catch (error) { return failure }] *)
Definition try_catch (r : result response) (failure : response) : response :=
  match r with
  | Ok response => response
  | Throw _ => failure
  end.

End Http.

Import Http.

(** ** Artifact resolver ([experiments/[id]/+server.ts]) *)

Module Resolver.

Definition GET (h : Host.t) (id : string) : response :=
  try_catch
    (let expDir := [id] in
     entries ← Host.readdir h expDir;
     let files := Host.name <$> entries in
     dirStat ← Host.stat h expDir;
     let contextFiles := List.filter (λ f, Str.endsWith f ".json") files in
     let hasStatistics := Str.array_includes files "statistics.json" in
     let hasFinalContext := Str.array_includes files "context_final.json" in
     let hasResults := Str.array_includes files "results.json" in
     let experiment :=
       Experiment id
         (if Str.startsWith id "experiment_" then full else stage_run)
         hasStatistics hasFinalContext hasResults contextFiles dirStat in
     let subfolders := List.filter (λ f, negb (Str.includes f ".")) files in
     if hasFinalContext then
       contextData ← Host.readJSON h (expDir ++ ["context_final.json"]);
       context ← normalizeContext contextData;
       Ok (Json 200 (ExperimentDetail experiment subfolders (Context context)))
     else if hasResults then
       results ← Host.readJSON h (expDir ++ ["results.json"]);
       full_context ← member results "full_context";
       results ←
         (if truthy full_context
          then normalized ← normalizeContext full_context;
               set_prop results "full_context" normalized
          else Ok results);
       Ok (Json 200 (ExperimentDetail experiment subfolders (Results results)))
     else
       match List.find (λ f, Str.startsWith f "context_") contextFiles with
       | Some firstContext =>
           contextData ← Host.readJSON h (expDir ++ [firstContext]);
           context ← normalizeContext contextData;
           Ok (Json 200 (ExperimentDetail experiment subfolders (Context context)))
       | None =>
           Ok (Json 200 (ExperimentDetail experiment subfolders NoAttachment))
       end)
    (Json 500 (ErrorBody "Failed to load experiment")).

End Resolver.

(** ** Repository scanner ([experiments/+server.ts]) *)

Module Scanner.

(** [Array.prototype.sort(compareFn)]: a stable sort; [compareFn a b <= 0]
    keeps [a] before [b].  For a consistent comparator every stable sort
    returns the same array, the one built here by insertion. *)
Section Sort.
Context {A : Type} (compareFn : A → A → Z).

Fixpoint insert_sorted (x : A) (l : list A) : list A :=
  match l with
  | [] => [x]
  | y :: l' =>
      if (compareFn x y <=? 0)%Z then x :: y :: l'
      else y :: insert_sorted x l'
  end.

Fixpoint sort (l : list A) : list A :=
  match l with
  | [] => []
  | x :: l' => insert_sorted x (sort l')
  end.

(** [a] may stay before [b]. *)
Definition keeps_before (a b : A) : Prop := (compareFn a b <= 0)%Z.

End Sort.

(** The body of the [for (const entry of entries)] loop, threading the
    [experiments] array. *)
Fixpoint scan (h : Host.t) (entries : list Host.dirent)
    (experiments : list experiment) : result (list experiment) :=
  match entries with
  | [] => Ok experiments
  | entry :: entries' =>
      if Host.isDirectory entry && negb (Str.startsWith (Host.name entry) ".")
      then
        let expDir := [Host.name entry] in
        listing ← Host.readdir h expDir;
        let files := Host.name <$> listing in
        let contextFiles := List.filter (λ f, Str.endsWith f ".json") files in
        let hasStatistics := Str.array_includes files "statistics.json" in
        let hasFinalContext := Str.array_includes files "context_final.json" in
        let hasResults := Str.array_includes files "results.json" in
        dirStat ← Host.stat h expDir;
        scan h entries'
          (experiments ++
             [Experiment (Host.name entry)
                (if Str.startsWith (Host.name entry) "stage_run_"
                 then stage_run else full)
                hasStatistics hasFinalContext hasResults contextFiles dirStat])
      else scan h entries' experiments
  end.

Definition GET (h : Host.t) : response :=
  try_catch
    (entries ← Host.readdir h [];
     experiments ← scan h entries [];
     let experiments :=
       sort (λ a b, Host.localeCompare h (id b) (id a)) experiments in
     Ok (Json 200 (ExperimentList experiments)))
    (Json 500 (ErrorBody "Failed to load experiments")).

End Scanner.

(** ** Design assets ([experiments/[id]/designs/[filename]/+server.ts]) *)

Module Assets.

(** The file-system calls a request issues, in order. *)
Inductive fs_call :=
| Access (p : Host.path)
| ReadFile (p : Host.path).

Definition contentType (filename : string) : string :=
  let ext := Str.last_segment (Str.toLowerCase filename) EmptyString in
  if String.eqb ext "jpg" || String.eqb ext "jpeg" then "image/jpeg"
  else if String.eqb ext "gif" then "image/gif"
  else if String.eqb ext "webp" then "image/webp"
  else "image/png".

(** The handler, returning its response together with the trace of the
    file-system calls it made. *)
Definition GET (h : Host.t) (id filename : string)
    : response * list fs_call :=
  if negb (truthy (VStr id)) || negb (truthy (VStr filename)) then
    (HttpError 400 "Missing experiment ID or filename", [])
  else if Str.includes id ".." || Str.includes filename ".." then
    (HttpError 400 "Invalid path", [])
  else
    let imagePath := [id; "designs"; filename] in
    match Host.access h imagePath with
    | Throw _ => (HttpError 404 "Image not found", [Access imagePath])
    | Ok _ =>
        match Host.readFile h imagePath with
        | Throw _ =>
            (HttpError 404 "Image not found",
             [Access imagePath; ReadFile imagePath])
        | Ok imageBuffer =>
            (Image imageBuffer (contentType filename),
             [Access imagePath; ReadFile imagePath])
        end
    end.

End Assets.

(** ** Vocabulary of the properties *)

Module Spec.

(** The three fixed stages, the key of each in [stage_outputs], and the
    direct state property whose presence triggers its backfill. *)
Inductive stage := IdeaDevelopment | Prototyping | Pitch.

Definition stage_key (s : stage) : string :=
  match s with
  | IdeaDevelopment => "idea_development"
  | Prototyping => "prototyping"
  | Pitch => "pitch"
  end.

Definition legacy_key (s : stage) : string :=
  match s with
  | IdeaDevelopment => "idea"
  | Prototyping => "prototype"
  | Pitch => "pitch"
  end.

(** A field is present when it passes the test the normalizer applies to
    it ([state.idea], [!stageOutputs.pitch], [!context?.state]): it is
    there and its value is truthy.  A field that is missing, [null] or
    otherwise falsy is absent. *)
Definition present (v : value) : Prop := truthy v = true.

Definition state_of (context : value) : value := get_prop context "state".
Definition stage_outputs_of (context : value) : value :=
  get_prop (state_of context) "stage_outputs".
Definition stage_entry (context : value) (s : stage) : value :=
  get_prop (stage_outputs_of context) (stage_key s).
Definition legacy_field (context : value) (s : stage) : value :=
  get_prop (state_of context) (legacy_key s).

(** [stage_outputs] has the shape its declared type gives it: absent, or
    an object. *)
Definition stage_outputs_well_shaped (context : value) : Prop :=
  present (stage_outputs_of context) →
  is_object (stage_outputs_of context) = true.

(** The presence invariant relating a raw context and its normal form. *)
Definition presence_invariant (raw normal : value) : Prop :=
  ∀ s, present (stage_entry normal s) ↔
       present (stage_entry raw s) ∨ present (legacy_field raw s).

(** A plain object: neither an array nor a primitive. *)
Definition plain_object (v : value) : Prop := ∃ props, v = VObj props.

(** Nothing but [state.stage_outputs] differs between [raw] and [normal]:
    they are the same value, or both are plain objects whose states are
    plain objects, with the same top-level fields other than [state] and
    the same state fields other than [stage_outputs].  A state that is a
    string, a number, [true] or an array in [raw] and an object in
    [normal] is a difference outside [state.stage_outputs]. *)
Definition frame_preserved (raw normal : value) : Prop :=
  normal = raw ∨
  (plain_object raw ∧ plain_object normal ∧
   plain_object (state_of raw) ∧ plain_object (state_of normal) ∧
   (∀ k, k ≠ "stage_outputs" →
         own_props (state_of normal) !! k = own_props (state_of raw) !! k) ∧
   (∀ k, k ≠ "state" → own_props normal !! k = own_props raw !! k)).


(** One conditional assignment of the normalizer, as a function of the
    current [stageOutputs]. *)
Definition backfill (state : value) (key legacy : string) (bundle : value)
    (stageOutputs : value) : result value :=
  if negb (truthy (get_prop stageOutputs key)) && truthy (get_prop state legacy)
  then set_prop stageOutputs key bundle
  else Ok stageOutputs.

(** The bundles the normalizer synthesizes from a legacy state. *)
Definition idea_development_bundle (state : value) : value :=
  object
    [("idea", get_prop state "idea");
     ("research", get_prop state "research");
     ("final_validation",
       js_or (get_prop state "research_final") (get_prop state "research"));
     ("legal_insights",
       js_coalesce (get_prop state "legal_insights") VUndefined);
     ("refinement_feedback", get_prop state "refinement_feedback")].

Definition prototyping_bundle (state : value) : value :=
  object
    [("architecture", get_prop state "architecture");
     ("design", get_prop state "design");
     ("final_designs", get_prop state "final_designs");
     ("prototype", get_prop state "prototype")].

Definition pitch_bundle (state : value) : value :=
  object
    [("marketing_strategies", get_prop state "marketing_strategies");
     ("pitch_deck", get_prop state "pitch")].

Definition stage_bundle (s : stage) (state : value) : value :=
  match s with
  | IdeaDevelopment => idea_development_bundle state
  | Prototyping => prototyping_bundle state
  | Pitch => pitch_bundle state
  end.

(** The three assignments in sequence. *)
Definition backfill_all (state stageOutputs : value) : result value :=
  stageOutputs ←
    backfill state "idea_development" "idea" (idea_development_bundle state)
      stageOutputs;
  stageOutputs ←
    backfill state "prototyping" "prototype" (prototyping_bundle state)
      stageOutputs;
  backfill state "pitch" "pitch" (pitch_bundle state) stageOutputs.

(** [{...context, state: {...state, stage_outputs: stageOutputs}}] *)
Definition with_stage_outputs (context stageOutputs : value) : value :=
  VObj (<["state" := VObj (<["stage_outputs" := stageOutputs]>
                             (own_props (state_of context)))]>
          (own_props context)).

(** The error taxonomy of the boundary, by HTTP status. *)
Inductive error_kind := BadRequest | NotFound | ReadError.

Definition error_kind_of (r : response) : option error_kind :=
  match status_of r with
  | 400 => Some BadRequest
  | 404 => Some NotFound
  | 500 => Some ReadError
  | _ => None
  end.

(** The summary and the sub-folder list [experiments/[id]] computes from
    the listing of the directory and its modification time. *)
Definition summary_of (id : string) (files : list string) (dirStat : string)
    : experiment :=
  Experiment id
    (if Str.startsWith id "experiment_" then full else stage_run)
    (Str.array_includes files "statistics.json")
    (Str.array_includes files "context_final.json")
    (Str.array_includes files "results.json")
    (List.filter (λ f, Str.endsWith f ".json") files)
    dirStat.

Definition subfolders_of (files : list string) : list string :=
  List.filter (λ f, negb (Str.includes f ".")) files.

(** A stage-context document: a name of the form [context_*.json]. *)
Definition is_stage_context (f : string) : bool :=
  Str.endsWith f ".json" && Str.startsWith f "context_".

Definition load_failure : response :=
  Json 500 (ErrorBody "Failed to load experiment").

(** The response that uses the document at [p] as the context: the summary
    with the normalized document attached, or the load failure when the
    document cannot be read, parsed or normalized. *)
Definition context_response (h : Host.t) (e : experiment)
    (subfolders : list string) (p : Host.path) : response :=
  match Host.readJSON h p ≫= normalizeContext with
  | Ok context => Json 200 (ExperimentDetail e subfolders (Context context))
  | Throw _ => load_failure
  end.

(** The response that attaches the results bundle at [p], its embedded
    [full_context] normalized when it has one. *)
Definition results_response (h : Host.t) (e : experiment)
    (subfolders : list string) (p : Host.path) : response :=
  match
    results ← Host.readJSON h p;
    full_context ← member results "full_context";
    if truthy full_context
    then normalized ← normalizeContext full_context;
         set_prop results "full_context" normalized
    else Ok results
  with
  | Ok results => Json 200 (ExperimentDetail e subfolders (Results results))
  | Throw _ => load_failure
  end.

(** Lexical order on names: code unit by code unit. *)
Definition lex_le (a b : string) : Prop := String.leb a b = true.

(** A comparator [Array.prototype.sort] can rely on: the order it induces
    is total and transitive, and swapping the arguments swaps the sign. *)
Record consistent (compare : string → string → Z) : Prop := {
  consistent_total : ∀ a b, (compare a b <= 0 ∨ compare b a <= 0)%Z;
  consistent_trans :
    ∀ a b c, (compare a b <= 0 → compare b c <= 0 → compare a c <= 0)%Z;
  consistent_sign : ∀ a b, (compare a b < 0 → 0 < compare b a)%Z;
}.

(** Two strings that differ only in their decimal digits: same length,
    and wherever the code units differ both are digits (two date-time
    suffixes such as [20240101_000000] and [20240102_000000]). *)
Definition decimal_digit (c : ascii) : bool :=
  ((48 <=? N_of_ascii c) && (N_of_ascii c <=? 57))%N.

Definition differ_in_digits (s t : string) : Prop :=
  Forall2 (λ c d, c = d ∨ (decimal_digit c = true ∧ decimal_digit d = true))
    (String.list_ascii_of_string s) (String.list_ascii_of_string t).

(** A comparator that orders ids differing only in digits as the lexical
    order does. *)
Definition orders_digits_lexically (compare : string → string → Z) : Prop :=
  ∀ prefix s t,
    differ_in_digits s t → String.compare s t = Lt →
    (compare (prefix +:+ s) (prefix +:+ t) < 0)%Z.

(** Two orders on summaries, read "[a] may come before [b]": descending
    under a comparator of ids, and descending in lexical order of ids. *)
Definition descending_by (compare : string → string → Z)
    (a b : experiment) : Prop :=
  (compare (id b) (id a) <= 0)%Z.

Definition descending_lexical (a b : experiment) : Prop :=
  lex_le (id b) (id a).

(** The kind the listing route gives a directory name, and the kind the
    per-id route gives an id. *)
Definition listing_kind (name : string) : kind :=
  if Str.startsWith name "stage_run_" then stage_run else full.

Definition detail_kind (id : string) : kind :=
  if Str.startsWith id "experiment_" then full else stage_run.

(** [p] occurs in [s]. *)
Definition occurs_in (p s : string) : Prop :=
  ∃ before after, s = before +:+ p +:+ after.

End Spec.

Import Spec.

(** ** A model of the default collation *)

Module Collation.

(** The order of the root collation on identifiers made of letters,
    digits and the underscore, which the default [localeCompare] follows:
    the underscore sorts before the digits and the digits before the
    letters; letters are compared without their case first, and lower case
    sorts before upper case where nothing else differs.  The sort key of a
    string is its primary weights, a separator, and its case weights; keys
    are compared weight by weight. *)
Definition primary_weight (c : ascii) : N :=
  let n := N_of_ascii c in
  if (n =? 95)%N then 1
  else if (65 <=? n)%N && (n <=? 90)%N then n + 32
  else n.

Definition case_weight (c : ascii) : N :=
  let n := N_of_ascii c in
  if (65 <=? n)%N && (n <=? 90)%N then 2 else 1.

Definition sort_key (s : string) : list N :=
  (primary_weight <$> String.list_ascii_of_string s) ++ [0%N] ++
  (case_weight <$> String.list_ascii_of_string s).

Fixpoint compare_keys (a b : list N) : comparison :=
  match a, b with
  | [], [] => Eq
  | [], _ :: _ => Lt
  | _ :: _, [] => Gt
  | x :: a', y :: b' =>
      match (x ?= y)%N with
      | Eq => compare_keys a' b'
      | c => c
      end
  end.

Definition localeCompare (a b : string) : Z :=
  match compare_keys (sort_key a) (sort_key b) with
  | Lt => (-1)%Z
  | Eq => 0%Z
  | Gt => 1%Z
  end.

End Collation.

(** ** Sample documents *)

Module Fixtures.

Definition idea_A : value := object [("problem", VStr "queues")].
Definition idea_I : value := object [("problem", VStr "parking")].
Definition validation_V : value := object [("recommendation", VStr "GO")].

(** A legacy document: [{state: {idea: I, research_final: V},
    history_length: 3}]. *)
Definition legacy_context : value :=
  object
    [("state", object [("idea", idea_I); ("research_final", validation_V)]);
     ("history_length", VNum 3%float)].

(** A structured document that also carries a stale legacy [idea]. *)
Definition structured_context : value :=
  object
    [("state",
       object
         [("stage_outputs",
            object [("idea_development", object [("idea", idea_A)])]);
          ("idea", idea_I);
          ("current_stage", VStr "prototyping")]);
     ("stage_contexts", object []);
     ("history_length", VNum 7%float)].


Definition string_state_context : value :=
  object [("state", VStr "ab"); ("history_length", VNum 1%float)].

(** What the normalizer makes of it: the string is spread into a new
    object. *)
Definition string_state_normalized : value :=
  object
    [("state",
       object [("0", VStr "a"); ("1", VStr "b");
               ("stage_outputs", object [])]);
     ("history_length", VNum 1%float)].

(** A document whose [stage_outputs] is a number and which has no legacy
    field: no backfill is due. *)
Definition settled_numeric_outputs_context : value :=
  object
    [("state",
       object [("stage_outputs", VNum 1%float);
               ("current_stage", VStr "pitch")])].

(** A results bundle without an embedded full context. *)
Definition results_without_context : value :=
  object [("stage", VStr "pitch"); ("success", VBool false)].

(** An experiments directory.  [experiment_20240101_000000] is a complete
    run and [experiment_20240102_000000] a later one that only has
    statistics; [stage_run_pitch_20240102_000000] holds a results bundle
    without an embedded context next to a stage-context document;
    [archive_20231231_235959] follows neither naming convention;
    [notes.txt] is a file and [.cache] is hidden.  Every listing is in
    lexical order. *)
Definition host : Host.t := {|
  Host.readdir p :=
    match p with
    | [] =>
        Ok [Host.Dirent ".cache" true;
            Host.Dirent "archive_20231231_235959" true;
            Host.Dirent "experiment_20240101_000000" true;
            Host.Dirent "experiment_20240102_000000" true;
            Host.Dirent "notes.txt" false;
            Host.Dirent "stage_run_pitch_20240102_000000" true]
    | ["archive_20231231_235959"] =>
        Ok [Host.Dirent "designs" true]
    | ["experiment_20240102_000000"] =>
        Ok [Host.Dirent "statistics.json" false]
    | ["experiment_20240101_000000"] =>
        Ok [Host.Dirent "context_final.json" false;
            Host.Dirent "context_idea_development.json" false;
            Host.Dirent "statistics.json" false]
    | ["stage_run_pitch_20240102_000000"] =>
        Ok [Host.Dirent "context_idea_development.json" false;
            Host.Dirent "results.json" false]
    | _ => Throw SystemError
    end;
  Host.stat p :=
    match p with
    | ["archive_20231231_235959"] => Ok "2023-12-31T23:59:59.000Z"
    | ["experiment_20240101_000000"] => Ok "2024-01-01T00:00:00.000Z"
    | ["experiment_20240102_000000"] => Ok "2024-01-02T09:30:00.000Z"
    | ["stage_run_pitch_20240102_000000"] => Ok "2024-01-02T00:00:00.000Z"
    | _ => Throw SystemError
    end;
  Host.readJSON p :=
    match p with
    | ["experiment_20240101_000000"; "context_final.json"] =>
        Ok structured_context
    | ["experiment_20240101_000000"; "context_idea_development.json"] =>
        Ok legacy_context
    | ["stage_run_pitch_20240102_000000"; "context_idea_development.json"] =>
        Ok legacy_context
    | ["stage_run_pitch_20240102_000000"; "results.json"] =>
        Ok results_without_context
    | _ => Throw SystemError
    end;
  Host.access p := Throw SystemError;
  Host.readFile p := Throw SystemError;
  Host.localeCompare := Collation.localeCompare;
|}.

(** The listing of that directory, newest id first. *)
Definition listing : list experiment :=
  [Experiment "stage_run_pitch_20240102_000000" stage_run false false true
     ["context_idea_development.json"; "results.json"]
     "2024-01-02T00:00:00.000Z";
   Experiment "experiment_20240102_000000" full true false false
     ["statistics.json"] "2024-01-02T09:30:00.000Z";
   Experiment "experiment_20240101_000000" full true true false
     ["context_final.json"; "context_idea_development.json";
      "statistics.json"]
     "2024-01-01T00:00:00.000Z";
   Experiment "archive_20231231_235959" full false false false
     [] "2023-12-31T23:59:59.000Z"].

(** An experiments directory whose names differ in case. *)
Definition mixed_case_host : Host.t := {|
  Host.readdir p :=
    match p with
    | [] =>
        Ok [Host.Dirent "Experiment_final" true;
            Host.Dirent "experiment_example" true]
    | ["Experiment_final"] | ["experiment_example"] => Ok []
    | _ => Throw SystemError
    end;
  Host.stat p := Ok "2024-01-01T00:00:00.000Z";
  Host.readJSON p := Throw SystemError;
  Host.access p := Throw SystemError;
  Host.readFile p := Throw SystemError;
  Host.localeCompare := Collation.localeCompare;
|}.

End Fixtures.

(** ** More string and array operations *)

Module Text.

(** [s.split(sep)] for a separator of one code unit: the pieces between
    the separators, one piece more than there are separators. *)
Fixpoint split (sep : ascii) (s : string) : list string :=
  match s with
  | EmptyString => [EmptyString]
  | String c s' =>
      if Ascii.eqb c sep then EmptyString :: split sep s'
      else match split sep s' with
           | piece :: pieces => String c piece :: pieces
           | [] => [String c EmptyString]
           end
  end.

(** [l.join(sep)] *)
Fixpoint join (sep : string) (l : list string) : string :=
  match l with
  | [] => EmptyString
  | [piece] => piece
  | piece :: l' => piece +:+ sep +:+ join sep l'
  end.

(** [l.pop()] as a value: the last element, [undefined] on an empty
    array. *)
Definition pop (l : list string) : option string := last l.

(** [l.slice(-n)]: the last [n] elements, all of them when there are
    fewer. *)
Definition slice_last (n : nat) (l : list string) : list string :=
  drop (length l - n) l.

(** [s.slice(from, to)] for constants [0 <= from <= to]. *)
Definition slice (from to : nat) (s : string) : string :=
  String.substring from (to - from) s.

(** [s.replace(p, r)] for a string pattern [p] and a replacement [r]
    without [$]: the first occurrence of [p] is replaced. *)
Fixpoint replace (s p r : string) : string :=
  if String.prefix p s then r +:+ String.substring (String.length p)
                                    (String.length s - String.length p) s
  else match s with
       | EmptyString => EmptyString
       | String c s' => String c (replace s' p r)
       end.

(** A decimal digit, [\d]. *)
Definition digit (c : ascii) : bool :=
  ((48 <=? N_of_ascii c) && (N_of_ascii c <=? 57))%N.

Definition digits (s : string) : bool :=
  forallb digit (String.list_ascii_of_string s).

(** [s.match(/_(\d{8}_\d{6})$/)]: the first group of the match, when [s]
    ends with an underscore, eight digits, an underscore and six
    digits. *)
Definition match_timestamp (s : string) : option string :=
  let n := String.length s in
  if (16 <=? n)
     && String.eqb (String.substring (n - 16) 1 s) "_"
     && digits (String.substring (n - 15) 8 s)
     && String.eqb (String.substring (n - 7) 1 s) "_"
     && digits (String.substring (n - 6) 6 s)
  then Some (String.substring (n - 15) 15 s)
  else None.

End Text.

(** ** Statistics and stage-context routes
       ([experiments/[id]/statistics/+server.ts],
        [experiments/[id]/context/[stage]/+server.ts]) *)

Module Documents.

(** Both routes answer [json(body, {status})] with a document as the
    body. *)
Definition statistics_GET (h : Host.t) (id : string) : nat * value :=
  match Host.readJSON h [id; "statistics.json"] with
  | Ok stats => (200, stats)
  | Throw _ => (404, object [("error", VStr "Statistics not found")])
  end.

Definition context_GET (h : Host.t) (id stage : string) : nat * value :=
  match Host.readJSON h [id; "context_" +:+ stage +:+ ".json"] with
  | Ok context => (200, context)
  | Throw _ => (500, object [("error", VStr "Failed to load context")])
  end.

End Documents.

(** ** Pages that call the routes, and the formatters they use
       ([routes/experiments/+page.svelte],
        [routes/experiments/[id]/prototype/+page.svelte],
        [lib/utils/formatters.ts]) *)

Module Pages.

(** [getExperimentTimestamp] of the experiments page. *)
Definition getExperimentTimestamp (id : string) : string :=
  if Str.startsWith id "experiment_" then
    Text.replace id "experiment_" EmptyString
  else if Str.startsWith id "stage_run_" then
    let parts := Text.split "_" id in
    Text.join "_" (Text.slice_last 2 parts)
  else
    match Text.match_timestamp id with
    | Some group => group
    | None => EmptyString
    end.

(** The type filter of the experiments page: ['all'], or one kind. *)
Inductive filter_type := FilterAll | FilterKind (k : kind).

Definition kind_eqb (a b : kind) : bool :=
  match a, b with
  | full, full | stage_run, stage_run => true
  | _, _ => false
  end.

(** [filteredExperiments] of the experiments page; [localeCompare] is the
    one of the browser. *)
Definition filteredExperiments (localeCompare : string → string → Z)
    (filterType : filter_type) (searchQuery : string)
    (experiments : list experiment) : list experiment :=
  let result := experiments in
  let result :=
    match filterType with
    | FilterAll => result
    | FilterKind k => List.filter (λ e, kind_eqb (type e) k) result
    end in
  let result :=
    if truthy (VStr searchQuery) then
      let query := Str.toLowerCase searchQuery in
      List.filter (λ e, Str.includes (Str.toLowerCase (id e)) query) result
    else result in
  Scanner.sort
    (λ a b, localeCompare (getExperimentTimestamp (id b))
                          (getExperimentTimestamp (id a)))
    result.

(** [formatTimestamp] of the formatters.  The destructuring
    [[date, time] = timestamp.split('_')] leaves [time] undefined when
    there is no underscore; [time.slice] then throws and the [catch]
    returns the argument. *)
Definition formatTimestamp (timestamp : string) : string :=
  match Text.split "_" timestamp with
  | date :: time :: _ =>
      let year := Text.slice 0 4 date in
      let month := Text.slice 4 6 date in
      let day := Text.slice 6 8 date in
      let hour := Text.slice 0 2 time in
      let minute := Text.slice 2 4 time in
      year +:+ "-" +:+ month +:+ "-" +:+ day +:+ " " +:+ hour +:+ ":"
        +:+ minute
  | _ => timestamp
  end.

(** [getImageUrl] of the prototype page, for the experiment [expId]. *)
Definition image_filename (filepath : string) : string :=
  let filepath := if truthy (VStr filepath) then filepath else EmptyString in
  match Text.pop (Text.split "/" filepath) with
  | Some name => if truthy (VStr name) then name else EmptyString
  | None => EmptyString
  end.

Definition getImageUrl (expId filepath : string) : string :=
  "/api/experiments/" +:+ expId +:+ "/designs/" +:+ image_filename filepath.

End Pages.

(** ** Truncation ([lib/utils/formatters.ts]) *)

Module Display.

(** [s.slice(0, to)] for an integer [to]: a negative [to] counts from the
    end, and the bound is clamped to the string. *)
Definition slice_to (to : Z) (s : string) : string :=
  let len := Z.of_nat (String.length s) in
  let to := if (to <? 0)%Z then Z.max (len + to) 0 else Z.min to len in
  String.substring 0 (Z.to_nat to) s.

(** [truncate], for an integer [maxLength]. *)
Definition truncate (text : string) (maxLength : Z) : string :=
  if (Z.of_nat (String.length text) <=? maxLength)%Z then text
  else slice_to (maxLength - 3) text +:+ "...".

End Display.

(** ** Test-result routes ([api/tests/+server.ts]) *)

Module Tests.

(** The files the listing keeps: [f.endsWith('.json') &&
    !f.includes('latest')]. *)
Definition jsonFiles (files : list string) : list string :=
  List.filter
    (λ f, Str.endsWith f ".json" && negb (Str.includes f "latest")) files.

(** The callback mapped over [jsonFiles]: the summary of one file, or
    [null] when the file cannot be read or parsed or holds [null].  The
    host is the one of the test-results directory. *)
Definition summary (h : Host.t) (file : string) : value :=
  match
    data ← Host.readJSON h [file];
    stage_name ← member data "stage_name";
    test_name ← member data "test_name";
    agent_name ← member data "agent_name";
    test_type ← member data "test_type";
    timestamp ← member data "timestamp";
    timestamp_start ← member data "timestamp_start";
    execution_time_ms ← member data "execution_time_ms";
    success ← member data "success";
    Ok (object
          [("id", VStr (Text.replace file ".json" EmptyString));
           ("filename", VStr file);
           ("stage_name", stage_name);
           ("test_name", test_name);
           ("agent_name", agent_name);
           ("test_type", test_type);
           ("timestamp", js_or timestamp timestamp_start);
           ("execution_time_ms", execution_time_ms);
           ("success", success)])
  with
  | Ok result => result
  | Throw _ => VNull
  end.

(** The per-id handler: [json({ id: params.id, ...JSON.parse(testData) })],
    the properties of the document laid over the requested id. *)
Definition GET (h : Host.t) (id : string) : nat * value :=
  match Host.readJSON h [id +:+ ".json"] with
  | Ok data => (200, VObj (own_props data ∪ {["id" := VStr id]}))
  | Throw _ => (500, object [("error", VStr "Failed to load test result")])
  end.

End Tests.

(** ** More sample hosts *)

Module Samples.

(** A host that serves one design image. *)
Definition asset_host : Host.t := {|
  Host.readdir p := Throw SystemError;
  Host.stat p := Throw SystemError;
  Host.readJSON p := Throw SystemError;
  Host.access p :=
    match p with
    | ["experiment_20240101_000000"; "designs"; "home.final.JPG"] => Ok ()
    | _ => Throw SystemError
    end;
  Host.readFile p :=
    match p with
    | ["experiment_20240101_000000"; "designs"; "home.final.JPG"] =>
        Ok "jpeg-bytes"
    | _ => Throw SystemError
    end;
  Host.localeCompare := Collation.localeCompare;
|}.

(** A results bundle with an embedded legacy context. *)
Definition results_with_context : value :=
  object [("stage", VStr "idea_development"); ("success", VBool true);
          ("full_context", Fixtures.legacy_context)].

(** A directory of one stage run, and one run whose final context is
    listed but unreadable next to a readable stage context. *)
Definition stage_run_host : Host.t := {|
  Host.readdir p :=
    match p with
    | [] =>
        Ok [Host.Dirent "experiment_20240103_000000" true;
            Host.Dirent "stage_run_idea_development_20240104_101500" true]
    | ["experiment_20240103_000000"] =>
        Ok [Host.Dirent "context_final.json" false;
            Host.Dirent "context_pitch.json" false]
    | ["stage_run_idea_development_20240104_101500"] =>
        Ok [Host.Dirent "results.json" false]
    | ["stage_run_pitch_20240105_000000"] =>
        Ok [Host.Dirent "context_pitch.json" false;
            Host.Dirent "designs" true]
    | _ => Throw SystemError
    end;
  Host.stat p :=
    match p with
    | ["experiment_20240103_000000"] => Ok "2024-01-03T00:00:00.000Z"
    | ["stage_run_idea_development_20240104_101500"] =>
        Ok "2024-01-04T10:15:00.000Z"
    | ["stage_run_pitch_20240105_000000"] => Ok "2024-01-05T00:00:00.000Z"
    | _ => Throw SystemError
    end;
  Host.readJSON p :=
    match p with
    | ["experiment_20240103_000000"; "context_pitch.json"] =>
        Ok Fixtures.legacy_context
    | ["stage_run_idea_development_20240104_101500"; "results.json"] =>
        Ok results_with_context
    | ["stage_run_pitch_20240105_000000"; "context_pitch.json"] =>
        Ok Fixtures.legacy_context
    | _ => Throw SyntaxError
    end;
  Host.access p := Throw SystemError;
  Host.readFile p := Throw SystemError;
  Host.localeCompare := Collation.localeCompare;
|}.

(** A legacy document of a finished run: flat prototype and pitch
    fields, no [stage_outputs]. *)
Definition legacy_run_context : value :=
  object
    [("state",
       object
         [("idea", Fixtures.idea_I);
          ("prototype", object [("directory", VStr "prototype")]);
          ("architecture", object [("system_name", VStr "Parking")]);
          ("pitch", object [("slides", VArr [] ∅)]);
          ("marketing_strategies", VArr [VStr "seo"] ∅)]);
     ("history_length", VNum 12%float)].

(** A test-results directory with one result, which carries an [id] of
    its own. *)
Definition test_result : value :=
  object [("id", VStr "run-7"); ("stage_name", VStr "pitch");
          ("test_name", VStr "deck"); ("success", VBool true);
          ("timestamp_start", VStr "2024-01-05T00:00:00")].

Definition test_results_host : Host.t := {|
  Host.readdir p := Throw SystemError;
  Host.stat p := Throw SystemError;
  Host.readJSON p :=
    match p with
    | ["pitch_deck_20240105.json"] => Ok test_result
    | _ => Throw SystemError
    end;
  Host.access p := Throw SystemError;
  Host.readFile p := Throw SystemError;
  Host.localeCompare := Collation.localeCompare;
|}.

End Samples.

(** * Properties *)

(** ** JavaScript values *)

Section ValueFacts.

Lemma get_prop_opt_eq v k : get_prop_opt v k = get_prop v k.
Proof. by destruct v. Qed.

Lemma falsy_no_props v : truthy v = false → own_props v = ∅.
Proof.
  destruct v as [| |b|n|s|l m|m]; simpl; try done.
  destruct s; [done | discriminate].
Qed.

Lemma get_prop_falsy v k : truthy v = false → get_prop v k = VUndefined.
Proof. intros H. unfold get_prop. by rewrite (falsy_no_props _ H). Qed.

Lemma present_prop_truthy v k : present (get_prop v k) → truthy v = true.
Proof.
  unfold present. intros H. destruct (truthy v) eqn:E; [done|].
  by rewrite (get_prop_falsy _ _ E) in H.
Qed.

Lemma truthy_js_or a b : truthy b = true → truthy (js_or a b) = true.
Proof. unfold js_or. by destruct (truthy a) eqn:E. Qed.

Lemma set_prop_object v k x : is_object v = true → ∃ v', set_prop v k x = Ok v'.
Proof. destruct v; simpl; try done; eauto. Qed.

Lemma set_prop_Ok v k x v' :
  set_prop v k x = Ok v' →
  is_object v = true ∧ is_object v' = true ∧ get_prop v' k = x ∧
  (∀ k', k' ≠ k → get_prop v' k' = get_prop v k').
Proof.
  destruct v as [| |b|n|s|l m|m]; simpl; try done; intros [= <-];
    repeat split; unfold get_prop; simpl.
  - by erewrite lookup_union_Some_l; [|apply lookup_insert_eq].
  - intros k' Hk. by rewrite !lookup_union, lookup_insert_ne.
  - by rewrite lookup_insert_eq.
  - intros k' Hk. by rewrite lookup_insert_ne.
Qed.

Lemma is_object_truthy v : is_object v = true → truthy v = true.
Proof. by destruct v. Qed.

End ValueFacts.

(** ** Context normalizer *)

Section NormalizerFacts.

(** The normalizer is the guard, the three assignments and the rebuilt
    context. *)
Lemma normalizeContext_unfold context :
  normalizeContext context =
  if negb (truthy (state_of context)) then Ok context
  else backfill_all (state_of context)
         (js_or (stage_outputs_of context) (object []))
       ≫= λ stageOutputs, Ok (with_stage_outputs context stageOutputs).
Proof.
  unfold normalizeContext. rewrite get_prop_opt_eq. fold (state_of context).
  destruct (truthy (state_of context)); simpl; [|done].
  unfold backfill_all, backfill, with_stage_outputs, stage_outputs_of.
  unfold idea_development_bundle, prototyping_bundle, pitch_bundle.
  set (so0 := js_or _ _).
  destruct (_ && _); simpl.
  - destruct (set_prop so0 _ _) as [so1|]; simpl; [|done].
    destruct (_ && _); simpl.
    + destruct (set_prop so1 _ _) as [so2|]; simpl; [|done].
      by destruct (_ && _).
    + by destruct (_ && _).
  - destruct (_ && _); simpl.
    + destruct (set_prop so0 _ _) as [so2|]; simpl; [|done].
      by destruct (_ && _).
    + by destruct (_ && _).
Qed.

Lemma stage_bundle_truthy s state : truthy (stage_bundle s state) = true.
Proof. by destruct s. Qed.

(** One assignment: what it leaves in [stageOutputs]. *)
Lemma backfill_Ok state key legacy bundle so so' :
  backfill state key legacy bundle so = Ok so' →
  (truthy so = true → truthy so' = true) ∧
  (get_prop so' key =
     if negb (truthy (get_prop so key)) && truthy (get_prop state legacy)
     then bundle else get_prop so key) ∧
  (∀ k, k ≠ key → get_prop so' k = get_prop so k).
Proof.
  unfold backfill. destruct (_ && _) eqn:E.
  - intros H. apply set_prop_Ok in H as (_ & Ho & Hk & Hne).
    split_and!; [by intros; apply is_object_truthy|done|done].
  - by intros [= <-].
Qed.

Lemma backfill_object state key legacy bundle so :
  is_object so = true →
  ∃ so', backfill state key legacy bundle so = Ok so' ∧ is_object so' = true.
Proof.
  intros Ho. unfold backfill. destruct (_ && _).
  - destruct (set_prop_object so key bundle Ho) as [so' H].
    exists so'. split; [done|]. by apply set_prop_Ok in H as (_ & ? & _).
  - eauto.
Qed.

(** A stage whose entry is present, or whose legacy field is absent,
    is skipped. *)
Lemma backfill_skip state key legacy bundle so :
  truthy (get_prop so key) = true ∨ truthy (get_prop state legacy) = false →
  backfill state key legacy bundle so = Ok so.
Proof. unfold backfill. by intros [-> | ->]; rewrite ?andb_false_r. Qed.

(** The three assignments: each stage entry afterwards. *)
Lemma backfill_all_Ok state so so' :
  backfill_all state so = Ok so' →
  (truthy so = true → truthy so' = true) ∧
  ∀ s, get_prop so' (stage_key s) =
       if negb (truthy (get_prop so (stage_key s)))
          && truthy (get_prop state (legacy_key s))
       then stage_bundle s state else get_prop so (stage_key s).
Proof.
  unfold backfill_all. intros H.
  destruct (backfill state "idea_development" _ _ so) as [so1|] eqn:E1;
    simpl in H; [|done].
  destruct (backfill state "prototyping" _ _ so1) as [so2|] eqn:E2;
    simpl in H; [|done].
  apply backfill_Ok in E1 as (T1 & K1 & N1).
  apply backfill_Ok in E2 as (T2 & K2 & N2).
  apply backfill_Ok in H as (T3 & K3 & N3).
  split; [by auto|]. intros []; simpl.
  - by rewrite N3, N2, K1.
  - by rewrite N3, K2, !N1.
  - by rewrite K3, !N2, !N1.
Qed.

Lemma backfill_all_object state so :
  is_object so = true → ∃ so', backfill_all state so = Ok so'.
Proof.
  intros Ho. unfold backfill_all.
  destruct (backfill_object state "idea_development" "idea"
              (idea_development_bundle state) so Ho) as (so1 & -> & Ho1).
  simpl.
  destruct (backfill_object state "prototyping" "prototype"
              (prototyping_bundle state) so1 Ho1) as (so2 & -> & Ho2).
  simpl.
  destruct (backfill_object state "pitch" "pitch"
              (pitch_bundle state) so2 Ho2) as (so3 & -> & Ho3).
  eauto.
Qed.

Lemma backfill_all_skip state so :
  (∀ s, truthy (get_prop so (stage_key s)) = true
        ∨ truthy (get_prop state (legacy_key s)) = false) →
  backfill_all state so = Ok so.
Proof.
  intros H. unfold backfill_all.
  rewrite (backfill_skip _ _ _ _ _ (H IdeaDevelopment)); simpl.
  rewrite (backfill_skip _ _ _ _ _ (H Prototyping)); simpl.
  by rewrite (backfill_skip _ _ _ _ _ (H Pitch)).
Qed.

(** Reading back the rebuilt context. *)
Lemma state_of_with_stage_outputs context so :
  state_of (with_stage_outputs context so) =
  VObj (<["stage_outputs" := so]> (own_props (state_of context))).
Proof.
  unfold state_of at 1, with_stage_outputs, get_prop; simpl.
  by rewrite lookup_insert_eq.
Qed.

Lemma stage_outputs_of_with_stage_outputs context so :
  stage_outputs_of (with_stage_outputs context so) = so.
Proof.
  unfold stage_outputs_of. rewrite state_of_with_stage_outputs.
  unfold get_prop; simpl. by rewrite lookup_insert_eq.
Qed.

Lemma legacy_of_with_stage_outputs context so k :
  k ≠ "stage_outputs" →
  get_prop (state_of (with_stage_outputs context so)) k =
  get_prop (state_of context) k.
Proof.
  intros Hk. rewrite state_of_with_stage_outputs.
  unfold get_prop; simpl. by rewrite lookup_insert_ne.
Qed.

Lemma with_stage_outputs_idemp context so :
  with_stage_outputs (with_stage_outputs context so) so =
  with_stage_outputs context so.
Proof.
  unfold with_stage_outputs at 1. rewrite state_of_with_stage_outputs.
  unfold with_stage_outputs; simpl. by rewrite !insert_insert_eq.
Qed.

End NormalizerFacts.

Section NormalizerResults.

(** The entries of [state.stage_outputs || {}] are those of
    [state.stage_outputs]. *)
Lemma js_or_empty_prop so k :
  get_prop (js_or so (object [])) k = get_prop so k.
Proof.
  unfold js_or. destruct (truthy so) eqn:E; [done|].
  by rewrite (get_prop_falsy _ _ E).
Qed.

Lemma js_or_empty_truthy so : truthy (js_or so (object [])) = true.
Proof. by apply truthy_js_or. Qed.

(** A successful run returns the context rebuilt around the backfilled
    [stageOutputs]. *)
Lemma normalizeContext_Ok context r :
  present (state_of context) →
  normalizeContext context = Ok r →
  ∃ so, backfill_all (state_of context)
          (js_or (stage_outputs_of context) (object [])) = Ok so
        ∧ r = with_stage_outputs context so.
Proof.
  unfold present. intros Hs. rewrite normalizeContext_unfold, Hs; simpl.
  destruct (backfill_all _ _) as [so|]; simpl; [|done].
  intros [= <-]. eauto.
Qed.

(** On a well-shaped document the normalizer returns. *)
Lemma normalizeContext_returns context :
  present (state_of context) →
  stage_outputs_well_shaped context →
  ∃ so, backfill_all (state_of context)
          (js_or (stage_outputs_of context) (object [])) = Ok so
        ∧ normalizeContext context = Ok (with_stage_outputs context so).
Proof.
  unfold present. intros Hs Hw.
  rewrite normalizeContext_unfold, Hs; simpl.
  destruct (backfill_all_object (state_of context)
              (js_or (stage_outputs_of context) (object []))) as [so E].
  - unfold js_or. destruct (truthy (stage_outputs_of context)) eqn:Et; [|done].
    by apply Hw.
  - exists so. by rewrite E.
Qed.

(** Each stage entry of the normal form, in terms of the raw context. *)
Lemma stage_entry_normal context so s :
  backfill_all (state_of context)
    (js_or (stage_outputs_of context) (object [])) = Ok so →
  stage_entry (with_stage_outputs context so) s =
  if negb (truthy (stage_entry context s)) && truthy (legacy_field context s)
  then stage_bundle s (state_of context) else stage_entry context s.
Proof.
  intros H. apply backfill_all_Ok in H as [_ H].
  unfold stage_entry at 1. rewrite stage_outputs_of_with_stage_outputs.
  by rewrite H, js_or_empty_prop.
Qed.

End NormalizerResults.

Section NamedProperties.

(** An index key starts with a decimal digit, so no stage key is one. *)
Lemma index_key_head i :
  ∃ c t, index_key i = String c t ∧
         (48 <=? nat_of_ascii c) && (nat_of_ascii c <=? 57) = true.
Proof. unfold index_key. destruct (Nat.to_uint i); simpl; eauto. Qed.

Lemma stage_key_not_index s i : stage_key s ≠ index_key i.
Proof.
  destruct (index_key_head i) as (c & t & -> & Hc).
  destruct s; simpl; intros [= <- _]; discriminate.
Qed.

Lemma string_props_indices s k v :
  own_props (VStr s) !! k = Some v → ∃ i, k = index_key i.
Proof.
  simpl. intros H. apply elem_of_list_to_map_2 in H.
  apply elem_of_lookup_imap_1 in H as (i & c & [= -> _] & _). eauto.
Qed.

(** Only an object (or an array) can hold a present stage entry. *)
Lemma present_stage_key_object v s :
  present (get_prop v (stage_key s)) → is_object v = true.
Proof.
  unfold present, get_prop.
  destruct v as [| |b|n|str|l m|m]; simpl; try done.
  destruct (_ !! _) as [x|] eqn:E; simpl; [|done].
  apply string_props_indices in E as [i E].
  by apply stage_key_not_index in E.
Qed.

End NamedProperties.

Section NormalizerClaims.




(** C2: normalizing the normalizer's output changes nothing, for every
    input: [normalize(normalize(x))] and [normalize(x)] return the same
    context, or both throw the same exception.  On the second pass every
    stage is skipped, its entry being present or its legacy field
    absent. *)
Theorem normalize_idempotent x :
  normalizeContext x ≫= normalizeContext = normalizeContext x.
Proof.
  rewrite (normalizeContext_unfold x).
  destruct (truthy (state_of x)) eqn:Hs; simpl;
    [|by rewrite normalizeContext_unfold, Hs].
  destruct (backfill_all _ _) as [so|] eqn:Hso; simpl; [|done].
  pose proof Hso as Hso'. apply backfill_all_Ok in Hso' as [Ht He].
  specialize (Ht (js_or_empty_truthy _)).
  rewrite normalizeContext_unfold.
  rewrite stage_outputs_of_with_stage_outputs.
  rewrite state_of_with_stage_outputs at 1; simpl.
  unfold js_or at 1. rewrite Ht.
  rewrite backfill_all_skip; simpl.
  { by rewrite with_stage_outputs_idemp. }
  intros s. rewrite legacy_of_with_stage_outputs by (by destruct s).
  rewrite He, js_or_empty_prop.
  pose proof (stage_bundle_truthy s (state_of x)) as Hb.
  destruct (truthy (get_prop (stage_outputs_of x) (stage_key s))) eqn:E1,
           (truthy (get_prop (state_of x) (legacy_key s))) eqn:E2; simpl;
    rewrite ?E1; auto.
Qed.

(** C3: for every raw context in which the entry of a stage is already
    present, the normalizer returns a context with that entry unchanged,
    whatever the legacy fields hold. *)
Theorem existing_entry_unchanged context s :
  present (stage_entry context s) →
  ∃ r, normalizeContext context = Ok r ∧
       stage_entry r s = stage_entry context s.
Proof.
  intros Hp.
  assert (Ho : is_object (stage_outputs_of context) = true)
    by (by apply (present_stage_key_object _ s)).
  assert (Hs : present (state_of context)).
  { eapply present_prop_truthy, is_object_truthy, Ho. }
  destruct (normalizeContext_returns context Hs) as (so & Hso & Hr);
    [by intros _|].
  exists (with_stage_outputs context so). split; [done|].
  rewrite (stage_entry_normal _ _ s Hso).
  unfold present in Hp. by rewrite Hp.
Qed.

Lemma existing_entry_unchanged_witness :
  present (stage_entry Fixtures.structured_context IdeaDevelopment) ∧
  legacy_field Fixtures.structured_context IdeaDevelopment = Fixtures.idea_I ∧
  ∃ r, normalizeContext Fixtures.structured_context = Ok r ∧
       stage_entry r IdeaDevelopment =
       stage_entry Fixtures.structured_context IdeaDevelopment.
Proof.
  split; [reflexivity|]. split; [reflexivity|].
  apply (existing_entry_unchanged Fixtures.structured_context IdeaDevelopment).
  reflexivity.
Defined.



(** C10, as stated, fails: on a document whose state is the string
    [ab], the normalizer returns a context whose state is no longer that
    string but a new object with the fields [0], [1] and
    [stage_outputs]; the state section as a whole has changed, not only
    [state.stage_outputs]. *)
Lemma frame_fails_on_primitive_state :
  ¬ (∀ context, present (state_of context) →
       ∀ r, normalizeContext context = Ok r → frame_preserved context r).
Proof.
  intros H.
  assert (Hr : normalizeContext Fixtures.string_state_context
               = Ok Fixtures.string_state_normalized)
    by (vm_compute; reflexivity).
  destruct (H Fixtures.string_state_context eq_refl _ Hr)
    as [Heq|(_ & _ & [props Hstate] & _)].
  - apply (f_equal state_of) in Heq. vm_compute in Heq. discriminate.
  - vm_compute in Hstate. discriminate.
Qed.

(** C10 (amended): for every raw context that is an object whose state
    section is an object, the normalizer changes nothing except
    [state.stage_outputs]: whenever it returns a context, the context and
    its state are still objects, every state field other than
    [stage_outputs] and every top-level field other than [state] has the
    value it had in the input, and none is added or removed; and it does
    return a context whenever [stage_outputs] is absent or an object. *)
Theorem normalize_frame context :
  plain_object context →
  plain_object (state_of context) →
  (∀ r, normalizeContext context = Ok r → frame_preserved context r) ∧
  (stage_outputs_well_shaped context →
   ∃ r, normalizeContext context = Ok r ∧ frame_preserved context r).
Proof.
  intros Hc Hstate.
  assert (Hs : present (state_of context))
    by (destruct Hstate as [props ->]; reflexivity).
  assert (Hframe : ∀ so,
    frame_preserved context (with_stage_outputs context so)).
  { intros so. right. split_and!; [done|by eexists|done| | |].
    - rewrite state_of_with_stage_outputs. by eexists.
    - intros k Hk. rewrite state_of_with_stage_outputs; simpl.
      by rewrite lookup_insert_ne.
    - intros k Hk. unfold with_stage_outputs; simpl.
      by rewrite lookup_insert_ne. }
  split.
  - intros r Hr.
    destruct (normalizeContext_Ok context r Hs Hr) as (so & _ & ->).
    apply Hframe.
  - intros Hw.
    destruct (normalizeContext_returns context Hs Hw) as (so & _ & Hr).
    exists (with_stage_outputs context so). split; [done|apply Hframe].
Qed.

Lemma normalize_frame_witness :
  plain_object Fixtures.structured_context ∧
  plain_object (state_of Fixtures.structured_context) ∧
  (∀ r, normalizeContext Fixtures.settled_numeric_outputs_context = Ok r →
        frame_preserved Fixtures.settled_numeric_outputs_context r) ∧
  (∃ r, normalizeContext Fixtures.settled_numeric_outputs_context = Ok r) ∧
  ∃ r, normalizeContext Fixtures.structured_context = Ok r
       ∧ frame_preserved Fixtures.structured_context r.
Proof.
  assert (Hc : plain_object Fixtures.structured_context)
    by (eexists; reflexivity).
  assert (Hs : plain_object (state_of Fixtures.structured_context))
    by (eexists; reflexivity).
  assert (Hw : stage_outputs_well_shaped Fixtures.structured_context)
    by (intros _; reflexivity).
  split_and!; [exact Hc|exact Hs| | |].
  - apply (normalize_frame Fixtures.settled_numeric_outputs_context);
      eexists; reflexivity.
  - eexists. vm_compute. reflexivity.
  - exact (proj2 (normalize_frame _ Hc Hs) Hw).
Defined.

End NormalizerClaims.

Section NormalizerBehaviour.

Lemma backfill_not_object state s legacy bundle so :
  is_object so = false →
  backfill state (stage_key s) legacy bundle so =
  if truthy (get_prop state legacy) then Throw TypeError else Ok so.
Proof.
intros Ho. unfold backfill.
assert (truthy (get_prop so (stage_key s)) = false) as ->.
{ apply not_true_is_false. intros H.
  apply present_stage_key_object in H. congruence. }
simpl. destruct (truthy (get_prop state legacy)); [|done].
by destruct so.
Qed.

(** X1: a context without a state section is returned as it is. *)
Theorem normalize_without_state context :
  ¬ present (state_of context) → normalizeContext context = Ok context.
Proof.
intros H. apply not_true_is_false in H.
by rewrite normalizeContext_unfold, H.
Qed.

Lemma normalize_without_state_witness :
  normalizeContext (object [("history_length", VNum 2%float)]) =
  Ok (object [("history_length", VNum 2%float)]).
Proof.
apply (normalize_without_state (object [("history_length", VNum 2%float)])).
intros H. vm_compute in H. discriminate.
Defined.

(** X2: for every raw context whose state section is present, whenever
    the normalizer returns a context, the presence invariant holds
    between the raw context and the returned one. *)
Theorem presence_invariant_when_normalize_returns context r :
  present (state_of context) →
  normalizeContext context = Ok r →
  presence_invariant context r.
Proof.
intros Hs Hr.
destruct (normalizeContext_Ok context r Hs Hr) as (so & Hso & ->).
intros s. rewrite (stage_entry_normal _ _ s Hso). unfold present.
pose proof (stage_bundle_truthy s (state_of context)) as Hb.
destruct (truthy (stage_entry context s)) eqn:E1,
         (truthy (legacy_field context s)) eqn:E2; simpl;
  rewrite ?E1, ?Hb; intuition congruence.
Qed.

Lemma presence_invariant_when_normalize_returns_witness :
  ∃ r, normalizeContext Fixtures.structured_context = Ok r ∧
       presence_invariant Fixtures.structured_context r.
Proof.
eexists. split; [vm_compute; reflexivity|].
apply presence_invariant_when_normalize_returns;
  [reflexivity|vm_compute; reflexivity].
Defined.

(** X3: the normalizer throws exactly when the state section is present,
    [stage_outputs] is present but is not an object, and the legacy
    indicator field of some stage is present; what it throws is a
    [TypeError]. *)
Theorem normalize_throws_iff context e :
  normalizeContext context = Throw e ↔
  e = TypeError ∧
  present (state_of context) ∧
  present (stage_outputs_of context) ∧
  is_object (stage_outputs_of context) = false ∧
  ∃ s, present (legacy_field context s).
Proof.
rewrite normalizeContext_unfold. unfold present.
destruct (truthy (state_of context)) eqn:Hs; simpl;
  [|split; [done|intros (_ & ? & _); done]].
unfold js_or.
destruct (truthy (stage_outputs_of context)) eqn:Ht.
2:{ destruct (backfill_all_object (state_of context) (object []))
      as [so ->]; [done|].
    split; [done|intros (_ & _ & ? & _); done]. }
destruct (is_object (stage_outputs_of context)) eqn:Ho.
{ destruct (backfill_all_object (state_of context)
              (stage_outputs_of context) Ho) as [so ->].
  split; [done|intros (_ & _ & _ & ? & _); done]. }
unfold backfill_all.
rewrite (backfill_not_object _ IdeaDevelopment _ _ _ Ho).
destruct (truthy (get_prop (state_of context) "idea")) eqn:E1; simpl.
{ split; [intros [= <-]|intros (-> & _); done].
  split_and!; try done. by exists IdeaDevelopment. }
rewrite (backfill_not_object _ Prototyping _ _ _ Ho).
destruct (truthy (get_prop (state_of context) "prototype")) eqn:E2; simpl.
{ split; [intros [= <-]|intros (-> & _); done].
  split_and!; try done. by exists Prototyping. }
rewrite (backfill_not_object _ Pitch _ _ _ Ho).
destruct (truthy (get_prop (state_of context) "pitch")) eqn:E3; simpl.
{ split; [intros [= <-]|intros (-> & _); done].
  split_and!; try done. by exists Pitch. }
split; [done|]. intros (_ & _ & _ & _ & [[] H]);
  unfold legacy_field in H; simpl in H; congruence.
Qed.

End NormalizerBehaviour.

(** ** Strings and arrays *)

Section StringFacts.

Lemma prefix_append p s : String.prefix p (p +:+ s) = true.
Proof.
induction p as [|c p IH]; simpl; [by destruct s|].
by destruct (ascii_dec c c).
Qed.

Lemma includes_unfold s p :
  Str.includes s p =
  String.prefix p s ||
  match s with
  | EmptyString => false
  | String _ s' => Str.includes s' p
  end.
Proof. by destruct s. Qed.

Lemma includes_occurs s p : occurs_in p s → Str.includes s p = true.
Proof.
intros (before & after & ->).
induction before as [|c before IH]; rewrite includes_unfold.
- change ("" +:+ p +:+ after) with (p +:+ after).
  by rewrite prefix_append.
- change (String c before +:+ p +:+ after)
    with (String c (before +:+ p +:+ after)).
  cbv beta iota. rewrite IH. apply orb_true_r.
Qed.

Lemma array_includes_elem_of l x : Str.array_includes l x = true ↔ x ∈ l.
Proof.
unfold Str.array_includes. rewrite existsb_exists. split.
- intros (y & Hy & E). apply String.eqb_eq in E as ->.
  by apply list_elem_of_In.
- intros H. exists x. split; [by apply list_elem_of_In|apply String.eqb_refl].
Qed.

Lemma array_includes_not_elem_of l x :
  Str.array_includes l x = false ↔ x ∉ l.
Proof.
rewrite <- array_includes_elem_of. by destruct (Str.array_includes l x).
Qed.

Lemma lex_le_refl s : lex_le s s.
Proof. by destruct (String.leb_total s s). Qed.

End StringFacts.

(** ** Design assets *)

Section AssetClaims.

(** C7: for every id and file name of which either contains a
    parent-directory segment (an occurrence of [..]), the design-asset
    route answers [BadRequest] and has made no file-system call: neither
    the existence check nor the read is issued. *)
Theorem traversal_rejected_before_file_access h id filename :
  occurs_in ".." id ∨ occurs_in ".." filename →
  error_kind_of (Assets.GET h id filename).1 = Some BadRequest ∧
  (Assets.GET h id filename).2 = [].
Proof.
intros H. unfold Assets.GET.
destruct (negb (truthy (VStr id)) || negb (truthy (VStr filename)));
  [done|].
assert (Str.includes id ".." || Str.includes filename ".." = true) as ->;
  [|done].
destruct H as [H|H]; apply includes_occurs in H; rewrite H;
  [done|apply orb_true_r].
Qed.

Lemma traversal_rejected_before_file_access_witness :
  error_kind_of
    (Assets.GET Fixtures.host "experiment_20240101_000000" "../../secret").1
    = Some BadRequest ∧
  (Assets.GET Fixtures.host "experiment_20240101_000000" "../../secret").2
    = [].
Proof.
apply (traversal_rejected_before_file_access Fixtures.host
         "experiment_20240101_000000" "../../secret").
right. by exists "", "/../secret".
Defined.

End AssetClaims.

(** ** Artifact resolver *)

Section ResolverFacts.

Lemma find_filter {A} (p q : A → bool) l :
  List.find q (List.filter p l) = List.find (λ x, p x && q x) l.
Proof.
induction l as [|x l IH]; simpl; [done|].
destruct (p x); simpl; [|done]. by rewrite IH.
Qed.

Lemma find_first {A} (p : A → bool) pre x post :
  p x = true → (∀ y, y ∈ pre → p y = false) →
  List.find p (pre ++ x :: post) = Some x.
Proof.
intros Hx. induction pre as [|y pre IH]; simpl; intros Hpre.
- by rewrite Hx.
- rewrite (Hpre y) by left. apply IH. intros z Hz. apply Hpre. by right.
Qed.

Lemma find_none {A} (p : A → bool) l :
  (∀ y, y ∈ l → p y = false) → List.find p l = None.
Proof.
induction l as [|y l IH]; simpl; intros Hl; [done|].
rewrite (Hl y) by left. apply IH. intros z Hz. apply Hl. by right.
Qed.

(** The route after a successful listing, branch by branch. *)
Lemma Resolver_GET_listed h id entries dirStat :
  Host.readdir h [id] = Ok entries →
  Host.stat h [id] = Ok dirStat →
  Resolver.GET h id =
  let files := Host.name <$> entries in
  let e := summary_of id files dirStat in
  let sub := subfolders_of files in
  if Str.array_includes files "context_final.json"
  then context_response h e sub [id; "context_final.json"]
  else if Str.array_includes files "results.json"
  then results_response h e sub [id; "results.json"]
  else match List.find is_stage_context files with
       | Some f => context_response h e sub [id; f]
       | None => Json 200 (ExperimentDetail e sub NoAttachment)
       end.
Proof.
intros Hd Hs. unfold Resolver.GET. rewrite Hd; simpl. rewrite Hs; simpl.
fold (summary_of id (Host.name <$> entries) dirStat).
fold (subfolders_of (Host.name <$> entries)).
destruct (Str.array_includes _ "context_final.json").
{ unfold context_response.
  destruct (Host.readJSON h _) as [doc|]; simpl; [|done].
  by destruct (normalizeContext doc). }
destruct (Str.array_includes _ "results.json").
{ unfold results_response.
  destruct (Host.readJSON h _) as [results|]; simpl; [|done].
  destruct (member results _) as [fc|]; simpl; [|done].
  destruct (truthy fc); simpl; [|done].
  destruct (normalizeContext fc) as [n|]; simpl; [|done].
  by destruct (set_prop results _ n). }
rewrite find_filter. fold is_stage_context.
change (λ x, Str.endsWith x ".json" && Str.startsWith x "context_")
  with is_stage_context.
destruct (List.find is_stage_context _) as [f|]; [|done].
unfold context_response.
destruct (Host.readJSON h _) as [doc|]; simpl; [|done].
by destruct (normalizeContext doc).
Qed.

End ResolverFacts.

Section ResolverClaims.

(** C5, as stated, fails: a directory with no final-context document,
    a results bundle that has no embedded full context, and a stage-context
    document.  The precedence of the claim reaches the stage-context
    document, which is there and loads; the route attaches the bundle and
    no context, and never consults that document. *)
Lemma results_bundle_shadows_stage_context :
  Host.readdir Fixtures.host ["stage_run_pitch_20240102_000000"] =
    Ok [Host.Dirent "context_idea_development.json" false;
        Host.Dirent "results.json" false] ∧
  Host.readJSON Fixtures.host ["stage_run_pitch_20240102_000000"; "results.json"]
    = Ok Fixtures.results_without_context ∧
  get_prop Fixtures.results_without_context "full_context" = VUndefined ∧
  (∃ e sub,
     Resolver.GET Fixtures.host "stage_run_pitch_20240102_000000" =
       Json 200 (ExperimentDetail e sub
                   (Results Fixtures.results_without_context)) ∧
     ∃ context,
       context_response Fixtures.host e sub
         ["stage_run_pitch_20240102_000000"; "context_idea_development.json"]
       = Json 200 (ExperimentDetail e sub (Context context))).
Proof.
split; [reflexivity|]. split; [reflexivity|]. split; [reflexivity|].
eexists _, _. split; [vm_compute; reflexivity|].
eexists. vm_compute. reflexivity.
Qed.

(** C5 (amended): for every experiment directory whose listing and stat
    succeed, the route chooses by a fixed precedence, first match winning:
    [context_final.json] if it is listed, used as the context; otherwise
    [results.json] if it is listed, in which case the results bundle is
    attached, its embedded full context normalized when it has one, and no
    stage-context document is consulted; otherwise the first
    [context_*.json] of the listing, used as the context, which is the
    lexically first one when the listing is in lexical order; and when
    none of them is listed the summary is returned with nothing attached.
    A chosen document that cannot be read, parsed or normalized gives the
    load failure. *)
Theorem resolver_precedence h id entries dirStat :
  Host.readdir h [id] = Ok entries →
  Host.stat h [id] = Ok dirStat →
  let files := Host.name <$> entries in
  let e := summary_of id files dirStat in
  let sub := subfolders_of files in
  ("context_final.json" ∈ files →
     Resolver.GET h id = context_response h e sub [id; "context_final.json"]) ∧
  ("context_final.json" ∉ files → "results.json" ∈ files →
     Resolver.GET h id = results_response h e sub [id; "results.json"]) ∧
  ("context_final.json" ∉ files → "results.json" ∉ files →
     ∀ before f after,
       files = before ++ f :: after →
       is_stage_context f = true →
       (∀ g, g ∈ before → is_stage_context g = false) →
       Resolver.GET h id = context_response h e sub [id; f] ∧
       (StronglySorted lex_le files →
        ∀ g, g ∈ files → is_stage_context g = true → lex_le f g)) ∧
  ("context_final.json" ∉ files → "results.json" ∉ files →
     (∀ g, g ∈ files → is_stage_context g = false) →
     Resolver.GET h id = Json 200 (ExperimentDetail e sub NoAttachment)).
Proof.
intros Hd Hs files e sub.
rewrite (Resolver_GET_listed h id entries dirStat Hd Hs).
fold files e sub. cbv zeta. split_and!.
- intros Hf. apply array_includes_elem_of in Hf. by rewrite Hf.
- intros Hf Hr. apply array_includes_not_elem_of in Hf.
  apply array_includes_elem_of in Hr. by rewrite Hf, Hr.
- intros Hf Hr before f after Hfiles Hc Hbefore.
  apply array_includes_not_elem_of in Hf, Hr. rewrite Hf, Hr. split.
  + assert (List.find is_stage_context files = Some f) as ->; [|done].
    rewrite Hfiles. by apply find_first.
  + intros Hsorted g Hg Hgc. rewrite Hfiles in Hg, Hsorted.
    apply elem_of_app in Hg as [Hg|Hg].
    { apply Hbefore in Hg. congruence. }
    apply elem_of_cons in Hg as [->|Hg]; [apply lex_le_refl|].
    apply StronglySorted_app_1_r in Hsorted.
    apply StronglySorted_inv in Hsorted as [_ Hall].
    by eapply Forall_forall in Hall.
- intros Hf Hr Hnone.
  apply array_includes_not_elem_of in Hf, Hr. rewrite Hf, Hr.
  assert (List.find is_stage_context files = None) as ->; [|done].
  by apply find_none.
Qed.

Lemma resolver_precedence_witness :
  Resolver.GET Fixtures.host "experiment_20240101_000000" =
  context_response Fixtures.host
    (summary_of "experiment_20240101_000000"
       ["context_final.json"; "context_idea_development.json";
        "statistics.json"]
       "2024-01-01T00:00:00.000Z")
    (subfolders_of
       ["context_final.json"; "context_idea_development.json";
        "statistics.json"])
    ["experiment_20240101_000000"; "context_final.json"].
Proof.
refine (proj1 (resolver_precedence Fixtures.host
                 "experiment_20240101_000000"
                 [Host.Dirent "context_final.json" false;
                  Host.Dirent "context_idea_development.json" false;
                  Host.Dirent "statistics.json" false]
                 "2024-01-01T00:00:00.000Z" eq_refl eq_refl) _).
by left.
Defined.

(** C8, as stated, fails: for a directory that does not exist the route
    answers with status 500, the kind of a read error, not [NotFound]. *)
Lemma missing_directory_is_not_NotFound :
  Host.readdir Fixtures.host ["experiment_19990101_000000"]
    = Throw SystemError ∧
  error_kind_of (Resolver.GET Fixtures.host "experiment_19990101_000000")
    = Some ReadError ∧
  error_kind_of (Resolver.GET Fixtures.host "experiment_19990101_000000")
    ≠ Some NotFound.
Proof. by split_and!. Qed.

(** C8 (amended): for every id naming a directory that does not exist
    under the experiments root (the listing of the directory is rejected),
    the route returns its one failure response, status 500 with the
    message [Failed to load experiment], the same as for every other read
    failure. *)
Theorem missing_directory_load_failure h id err :
  Host.readdir h [id] = Throw err →
  Resolver.GET h id = load_failure ∧
  error_kind_of (Resolver.GET h id) = Some ReadError.
Proof.
intros H. unfold Resolver.GET. by rewrite H.
Qed.

Lemma missing_directory_load_failure_witness :
  Resolver.GET Fixtures.host "experiment_19990101_000000" = load_failure ∧
  error_kind_of (Resolver.GET Fixtures.host "experiment_19990101_000000")
    = Some ReadError.
Proof.
apply (missing_directory_load_failure Fixtures.host
         "experiment_19990101_000000" SystemError).
reflexivity.
Defined.

End ResolverClaims.

(** ** Repository scanner *)

Section SortFacts.

Context {A : Type} (compareFn : A → A → Z).

Lemma insert_sorted_Permutation x l :
  Scanner.insert_sorted compareFn x l ≡ₚ x :: l.
Proof.
induction l as [|y l IH]; simpl; [done|].
destruct (compareFn x y <=? 0)%Z; [done|].
rewrite IH. apply Permutation_swap.
Qed.

Lemma sort_Permutation l : Scanner.sort compareFn l ≡ₚ l.
Proof.
induction l as [|x l IH]; simpl; [done|].
by rewrite insert_sorted_Permutation, IH.
Qed.

Hypothesis keeps_before_total :
  ∀ a b, Scanner.keeps_before compareFn a b
         ∨ Scanner.keeps_before compareFn b a.
Hypothesis keeps_before_trans :
  ∀ a b c, Scanner.keeps_before compareFn a b →
           Scanner.keeps_before compareFn b c →
           Scanner.keeps_before compareFn a c.

Lemma insert_sorted_StronglySorted x l :
  StronglySorted (Scanner.keeps_before compareFn) l →
  StronglySorted (Scanner.keeps_before compareFn)
    (Scanner.insert_sorted compareFn x l).
Proof.
induction 1 as [|y l Hl IH Hy]; simpl.
- repeat constructor.
- destruct (compareFn x y <=? 0)%Z eqn:E.
  + apply Z.leb_le in E. constructor; [by constructor|].
    constructor; [done|].
    eapply Forall_impl; [exact Hy|]. intros z Hz.
    by eapply keeps_before_trans.
  + apply Z.leb_gt in E. constructor; [done|].
    rewrite insert_sorted_Permutation. constructor; [|done].
    destruct (keeps_before_total x y) as [H|H]; [|done].
    unfold Scanner.keeps_before in H. lia.
Qed.

Lemma sort_StronglySorted l :
  StronglySorted (Scanner.keeps_before compareFn) (Scanner.sort compareFn l).
Proof.
induction l as [|x l IH]; simpl; [constructor|].
by apply insert_sorted_StronglySorted.
Qed.

End SortFacts.

Section ListFacts.

Context {A : Type}.

(** In a strongly sorted list an earlier element is related to every
    later one. *)
Lemma StronglySorted_lookup (R : relation A) l i j a b :
  StronglySorted R l → i < j → l !! i = Some a → l !! j = Some b → R a b.
Proof.
intros Hl. revert i j. induction Hl as [|x l Hl IH Hx]; intros i j Hij Hi Hj.
- done.
- destruct j as [|j]; [lia|]. simpl in Hj. destruct i as [|i].
  + simpl in Hi. injection Hi as ->.
    eapply Forall_forall in Hx; [done|]. by eapply list_elem_of_lookup_2.
  + simpl in Hi. apply (IH i j); [lia|done..].
Qed.

(** Sortedness carries over to a relation that agrees on the elements. *)
Lemma StronglySorted_agree (R R' : relation A) l :
  (∀ a b, a ∈ l → b ∈ l → R a b → R' a b) →
  StronglySorted R l → StronglySorted R' l.
Proof.
intros Hag Hl. induction Hl as [|x l Hl IH Hx]; constructor.
- apply IH. intros a b Ha Hb. apply Hag; by right.
- apply Forall_forall. intros y Hy. apply Hag; [by left|by right|].
  by eapply Forall_forall in Hx.
Qed.

End ListFacts.

Section ScannerFacts.

Lemma scan_app h entries experiments l :
  Scanner.scan h entries experiments = Ok l →
  ∃ added, l = experiments ++ added ∧
           Forall (λ e, type e = listing_kind (id e)) added.
Proof.
revert experiments l. induction entries as [|entry entries IH];
  intros experiments l; simpl.
- intros [= <-]. exists []. by rewrite app_nil_r.
- destruct (_ && _).
  + destruct (Host.readdir h _) as [listing|]; simpl; [|done].
    destruct (Host.stat h _) as [dirStat|]; simpl; [|done].
    intros H. apply IH in H as (added & -> & Hall).
    eexists (_ :: added). split; [by rewrite <- app_assoc|].
    by constructor.
  + apply IH.
Qed.

Lemma listing_kinds h experiments :
  Scanner.GET h = Json 200 (ExperimentList experiments) →
  Forall (λ e, type e = listing_kind (id e)) experiments.
Proof.
unfold Scanner.GET.
destruct (Host.readdir h []) as [entries|]; simpl; [|done].
destruct (Scanner.scan h entries []) as [scanned|] eqn:E; simpl; [|done].
intros [= <-]. apply scan_app in E as (added & -> & Hall).
by rewrite sort_Permutation.
Qed.

Lemma detail_kinds h id0 status e sub a :
  Resolver.GET h id0 = Json status (ExperimentDetail e sub a) →
  id e = id0 ∧ type e = detail_kind id0.
Proof.
destruct (Host.readdir h [id0]) as [entries|] eqn:Hd;
  [|by unfold Resolver.GET; rewrite Hd].
destruct (Host.stat h [id0]) as [dirStat|] eqn:Hs;
  [|by unfold Resolver.GET; rewrite Hd; simpl; rewrite Hs].
rewrite (Resolver_GET_listed _ _ _ _ Hd Hs). cbv zeta.
unfold context_response, results_response.
repeat (match goal with |- context [match ?x with _ => _ end] =>
          destruct x end; try done);
  by intros [= <- <- <-].
Qed.

(** X4: every summary of the listing is a stage run if and only if its
    id begins with [stage_run_], and a full run otherwise. *)
Theorem listing_kind_rule h experiments e :
  Scanner.GET h = Json 200 (ExperimentList experiments) →
  e ∈ experiments →
  (type e = stage_run ↔ Str.startsWith (id e) "stage_run_" = true) ∧
  (type e = full ↔ Str.startsWith (id e) "stage_run_" = false).
Proof.
intros H He. apply listing_kinds in H.
eapply Forall_forall in H; [|exact He]. rewrite H. unfold listing_kind.
by destruct (Str.startsWith (id e) "stage_run_").
Qed.

Lemma listing_kind_rule_witness :
  ∃ e, e ∈ Fixtures.listing ∧ id e = "stage_run_pitch_20240102_000000" ∧
    (type e = stage_run ↔ Str.startsWith (id e) "stage_run_" = true) ∧
    (type e = full ↔ Str.startsWith (id e) "stage_run_" = false).
Proof.
eexists. split; [apply list_elem_of_here|]. split; [reflexivity|].
apply (listing_kind_rule Fixtures.host Fixtures.listing).
- vm_compute. reflexivity.
- apply list_elem_of_here.
Defined.

(** X5: the summary of the per-id route carries the id asked for, and is
    a full run if and only if the id begins with [experiment_], and a
    stage run otherwise. *)
Theorem detail_kind_rule h id0 status e sub a :
  Resolver.GET h id0 = Json status (ExperimentDetail e sub a) →
  id e = id0 ∧
  (type e = full ↔ Str.startsWith id0 "experiment_" = true) ∧
  (type e = stage_run ↔ Str.startsWith id0 "experiment_" = false).
Proof.
intros H. apply detail_kinds in H as [Hid ->]. split; [done|].
unfold detail_kind. by destruct (Str.startsWith id0 "experiment_").
Qed.

Lemma detail_kind_rule_witness :
  ∃ e,
    id e = "experiment_20240102_000000" ∧
    (type e = full ↔
       Str.startsWith "experiment_20240102_000000" "experiment_" = true) ∧
    (type e = stage_run ↔
       Str.startsWith "experiment_20240102_000000" "experiment_" = false).
Proof.
eexists.
eapply (detail_kind_rule Fixtures.host "experiment_20240102_000000").
vm_compute. reflexivity.
Defined.

End ScannerFacts.

Section ScannerClaims.

(** C6 fails on the code: a directory whose name follows neither naming
    convention is [full] in the listing and [stage_run] in the per-id
    route, although its id does not begin with the stage-run prefix. *)
Lemma kind_differs_between_routes :
  Str.startsWith "archive_20231231_235959" "stage_run_" = false ∧
  Scanner.GET Fixtures.host = Json 200 (ExperimentList Fixtures.listing) ∧
  (∃ e, e ∈ Fixtures.listing ∧
        id e = "archive_20231231_235959" ∧ type e = full) ∧
  (∃ e sub a,
     Resolver.GET Fixtures.host "archive_20231231_235959" =
       Json 200 (ExperimentDetail e sub a) ∧
     id e = "archive_20231231_235959" ∧ type e = stage_run).
Proof.
split; [reflexivity|]. split; [vm_compute; reflexivity|]. split.
- eexists. split.
  + do 3 apply list_elem_of_further. apply list_elem_of_here.
  + by split.
- eexists _, _, _. split; [vm_compute; reflexivity|]. by split.
Qed.

(** C9, as stated, fails: the listing is sorted with [localeCompare],
    which puts [experiment_example] before [Experiment_final] (letters
    compare without their case first), so the descending listing starts
    with [Experiment_final], the lexically smaller id. *)
Lemma listing_not_in_lexical_order :
  ∃ experiments,
    Scanner.GET Fixtures.mixed_case_host = Json 200 (ExperimentList experiments) ∧
    id <$> experiments = ["Experiment_final"; "experiment_example"] ∧
    ¬ StronglySorted descending_lexical experiments.
Proof.
eexists. split; [vm_compute; reflexivity|]. split; [reflexivity|].
intros H. apply StronglySorted_inv in H as [_ H].
apply Forall_inv in H. vm_compute in H. discriminate.
Qed.

(** C9 (amended): the listing holds the scanned summaries sorted in
    descending order of id under [localeCompare], the collation order of
    the platform, taken to be a consistent comparator: of two ids that
    [localeCompare] orders strictly, the later one appears first.  Where
    [localeCompare] agrees with the lexical order on the ids listed, the
    listing is in descending lexical order; and where it orders ids that
    differ only in digits as the lexical order does, of two ids that
    differ only in a zero-padded date-time suffix the one with the later
    date appears first. *)
Theorem listing_sorted_by_localeCompare h experiments :
  consistent (Host.localeCompare h) →
  Scanner.GET h = Json 200 (ExperimentList experiments) →
  (∃ scanned,
     (Host.readdir h [] ≫= λ entries, Scanner.scan h entries []) = Ok scanned ∧
     experiments ≡ₚ scanned) ∧
  StronglySorted (descending_by (Host.localeCompare h)) experiments ∧
  (∀ i j a b,
     experiments !! i = Some a → experiments !! j = Some b →
     (Host.localeCompare h (id a) (id b) < 0)%Z → j < i) ∧
  ((∀ a b, a ∈ experiments → b ∈ experiments →
      (Host.localeCompare h (id a) (id b) <= 0)%Z ↔ lex_le (id a) (id b)) →
   StronglySorted descending_lexical experiments) ∧
  (orders_digits_lexically (Host.localeCompare h) →
   ∀ i j a b prefix earlier later,
     experiments !! i = Some a → experiments !! j = Some b →
     id a = prefix +:+ earlier → id b = prefix +:+ later →
     differ_in_digits earlier later → String.compare earlier later = Lt →
     j < i).
Proof.
intros [Htotal Htrans Hsign]. unfold Scanner.GET.
destruct (Host.readdir h []) as [entries|]; simpl; [|done].
destruct (Scanner.scan h entries []) as [scanned|]; simpl; [|done].
intros [= <-].
assert (Hsorted : StronglySorted (descending_by (Host.localeCompare h))
          (Scanner.sort (λ a b, Host.localeCompare h (id b) (id a)) scanned)).
{ apply (sort_StronglySorted (λ a b, Host.localeCompare h (id b) (id a))).
  - intros a b. apply Htotal.
  - intros a b c Hab Hbc. by apply (Htrans _ (id b)). }
assert (Hfirst : ∀ i j a b,
          Scanner.sort (λ a b, Host.localeCompare h (id b) (id a)) scanned
            !! i = Some a →
          Scanner.sort (λ a b, Host.localeCompare h (id b) (id a)) scanned
            !! j = Some b →
          (Host.localeCompare h (id a) (id b) < 0)%Z → j < i).
{ intros i j a b Hi Hj Hlt.
  destruct (decide (j < i)) as [|Hij]; [done|exfalso].
  apply Hsign in Hlt as Hgt.
  destruct (decide (i = j)) as [->|Hne].
  + rewrite Hi in Hj. injection Hj as ->. lia.
  + assert (Hlt' : i < j) by lia.
    pose proof (StronglySorted_lookup _ _ i j a b Hsorted Hlt' Hi Hj) as H.
    unfold descending_by in H. lia. }
split_and!.
- exists scanned. split; [done|apply sort_Permutation].
- done.
- done.
- intros Hagree. eapply StronglySorted_agree; [|exact Hsorted].
  intros a b Ha Hb. unfold descending_by, descending_lexical.
  by apply Hagree.
- intros Hdigits i j a b prefix earlier later Hi Hj Ha Hb Hd Hlt.
  apply (Hfirst i j a b Hi Hj). rewrite Ha, Hb. by apply Hdigits.
Qed.

End ScannerClaims.

(** ** The root collation *)

Section CollationFacts.

Lemma compare_keys_antisym a b :
  Collation.compare_keys b a = CompOpp (Collation.compare_keys a b).
Proof.
revert b. induction a as [|x a IH]; intros [|y b]; simpl; try done.
rewrite (N.compare_antisym x y).
destruct (x ?= y)%N; simpl; [apply IH|done..].
Qed.

Lemma compare_keys_trans a b c :
  Collation.compare_keys a b ≠ Gt → Collation.compare_keys b c ≠ Gt →
  Collation.compare_keys a c ≠ Gt.
Proof.
revert b c. induction a as [|x a IH]; intros [|y b] [|z c]; simpl; try done.
destruct (N.compare_spec x y) as [->|Hxy|Hxy]; [| |done].
- destruct (N.compare_spec y z) as [->|Hyz|Hyz]; [apply IH|done..].
- destruct (N.compare_spec y z) as [->|Hyz|Hyz]; [| |done]; intros _ _.
  + by rewrite (proj2 (N.compare_lt_iff x z) Hxy).
  + rewrite (proj2 (N.compare_lt_iff x z)); [done|lia].
Qed.

Lemma compare_keys_app k a b :
  Collation.compare_keys (k ++ a) (k ++ b) = Collation.compare_keys a b.
Proof.
induction k as [|x k IH]; simpl; [done|]. by rewrite N.compare_refl.
Qed.

Lemma localeCompare_nonpositive a b :
  (Collation.localeCompare a b <= 0)%Z ↔
  Collation.compare_keys (Collation.sort_key a) (Collation.sort_key b) ≠ Gt.
Proof.
unfold Collation.localeCompare.
destruct (Collation.compare_keys _ _); split; (done || lia).
Qed.

(** The model comparator is one [sort] can rely on. *)
Lemma root_collation_consistent : consistent Collation.localeCompare.
Proof.
split.
- intros a b. unfold Collation.localeCompare.
  rewrite (compare_keys_antisym (Collation.sort_key a) (Collation.sort_key b)).
  destruct (Collation.compare_keys _ _); simpl; lia.
- intros a b c. rewrite !localeCompare_nonpositive.
  apply compare_keys_trans.
- intros a b. unfold Collation.localeCompare.
  rewrite (compare_keys_antisym (Collation.sort_key a) (Collation.sort_key b)).
  destruct (Collation.compare_keys _ _); simpl; lia.
Qed.

Lemma list_ascii_of_string_app s t :
  String.list_ascii_of_string (s +:+ t) =
  String.list_ascii_of_string s ++ String.list_ascii_of_string t.
Proof. induction s as [|c s IH]; simpl; [done|]. by rewrite IH. Qed.

Lemma primary_weight_digit c :
  decimal_digit c = true → Collation.primary_weight c = N_of_ascii c.
Proof.
unfold decimal_digit, Collation.primary_weight. intros H.
apply andb_true_iff in H as [H1 H2].
apply N.leb_le in H1, H2.
destruct (N.eqb_spec (N_of_ascii c) 95); [lia|].
destruct (N.leb_spec 65 (N_of_ascii c)); simpl; [|done].
destruct (N.leb_spec (N_of_ascii c) 90); simpl; [lia|done].
Qed.

Lemma compare_keys_digits s t r1 r2 :
  differ_in_digits s t →
  String.compare s t = Lt →
  Collation.compare_keys
    ((Collation.primary_weight <$> String.list_ascii_of_string s) ++ r1)
    ((Collation.primary_weight <$> String.list_ascii_of_string t) ++ r2) = Lt.
Proof.
unfold differ_in_digits. revert t.
induction s as [|c s IH]; intros [|d t]; simpl; intros H; try done;
  try (by inversion H).
apply Forall2_cons in H as [[->|[Hc Hd]] H].
- rewrite N.compare_refl. unfold Ascii.compare. rewrite N.compare_refl.
  by apply IH.
- rewrite (primary_weight_digit _ Hc), (primary_weight_digit _ Hd).
  unfold Ascii.compare.
  destruct (N_of_ascii c ?= N_of_ascii d)%N; [by apply IH|done..].
Qed.

(** The model comparator puts the earlier of two date-time suffixes
    first, as the lexical order does. *)
Lemma root_collation_orders_digits :
  orders_digits_lexically Collation.localeCompare.
Proof.
intros prefix s t Hd Hlt. unfold Collation.localeCompare, Collation.sort_key.
rewrite !list_ascii_of_string_app, !fmap_app, <- !app_assoc.
rewrite compare_keys_app, (compare_keys_digits _ _ _ _ Hd Hlt). lia.
Qed.

End CollationFacts.

Section ScannerWitness.

Lemma listing_sorted_by_localeCompare_witness :
  Scanner.GET Fixtures.host = Json 200 (ExperimentList Fixtures.listing) ∧
  id <$> Fixtures.listing =
    ["stage_run_pitch_20240102_000000"; "experiment_20240102_000000";
     "experiment_20240101_000000"; "archive_20231231_235959"] ∧
  StronglySorted (descending_by Collation.localeCompare) Fixtures.listing ∧
  (∀ i j a b prefix earlier later,
     Fixtures.listing !! i = Some a → Fixtures.listing !! j = Some b →
     id a = prefix +:+ earlier → id b = prefix +:+ later →
     differ_in_digits earlier later → String.compare earlier later = Lt →
     j < i).
Proof.
assert (HG : Scanner.GET Fixtures.host =
             Json 200 (ExperimentList Fixtures.listing))
  by (vm_compute; reflexivity).
destruct (listing_sorted_by_localeCompare Fixtures.host Fixtures.listing
            root_collation_consistent HG) as (_ & Hs & _ & _ & Hd).
split; [exact HG|]. split; [reflexivity|]. split; [exact Hs|].
exact (Hd root_collation_orders_digits).
Defined.

End ScannerWitness.

(** * Further properties of the routes and their callers *)

(** ** Context normalizer: the other bundles, fixed points, result shape *)

Section NormalizerBundles.

(** X6: for every raw context whose legacy [prototype] field is present,
    whose [prototyping] entry is absent and whose [stage_outputs] is absent
    or an object, the normalizer returns a context whose [prototyping]
    entry is the object holding the state's [architecture], [design],
    [final_designs] and [prototype] fields as they are. *)
Theorem prototyping_backfill context :
  present (legacy_field context Prototyping) →
  ¬ present (stage_entry context Prototyping) →
  stage_outputs_well_shaped context →
  ∃ r, normalizeContext context = Ok r ∧
       stage_entry r Prototyping =
       object
         [("architecture", get_prop (state_of context) "architecture");
          ("design", get_prop (state_of context) "design");
          ("final_designs", get_prop (state_of context) "final_designs");
          ("prototype", get_prop (state_of context) "prototype")].
Proof.
intros Hl He Hw.
assert (Hs : present (state_of context))
  by (by eapply present_prop_truthy).
destruct (normalizeContext_returns context Hs Hw) as (so & Hso & Hr).
exists (with_stage_outputs context so). split; [done|].
rewrite (stage_entry_normal _ _ Prototyping Hso).
unfold present in *. apply not_true_is_false in He. by rewrite He, Hl.
Qed.

Lemma prototyping_backfill_witness :
  ∃ r, normalizeContext Samples.legacy_run_context = Ok r ∧
       stage_entry r Prototyping =
       object
         [("architecture", object [("system_name", VStr "Parking")]);
          ("design", VUndefined);
          ("final_designs", VUndefined);
          ("prototype", object [("directory", VStr "prototype")])].
Proof.
apply (prototyping_backfill Samples.legacy_run_context).
- reflexivity.
- intros H. vm_compute in H. discriminate.
- intros H. vm_compute in H. discriminate.
Defined.

(** X7: for every raw context whose legacy [pitch] field is present, whose
    [pitch] entry is absent and whose [stage_outputs] is absent or an
    object, the normalizer returns a context whose [pitch] entry holds the
    state's [marketing_strategies] as they are and the legacy [pitch] under
    the name [pitch_deck], and nothing else. *)
Theorem pitch_backfill context :
  present (legacy_field context Pitch) →
  ¬ present (stage_entry context Pitch) →
  stage_outputs_well_shaped context →
  ∃ r, normalizeContext context = Ok r ∧
       stage_entry r Pitch =
       object
         [("marketing_strategies",
            get_prop (state_of context) "marketing_strategies");
          ("pitch_deck", get_prop (state_of context) "pitch")] ∧
       get_prop (stage_entry r Pitch) "pitch" = VUndefined.
Proof.
intros Hl He Hw.
assert (Hs : present (state_of context))
  by (by eapply present_prop_truthy).
destruct (normalizeContext_returns context Hs Hw) as (so & Hso & Hr).
exists (with_stage_outputs context so). split; [done|].
rewrite (stage_entry_normal _ _ Pitch Hso).
unfold present in *. apply not_true_is_false in He. by rewrite He, Hl.
Qed.

Lemma pitch_backfill_witness :
  ∃ r, normalizeContext Samples.legacy_run_context = Ok r ∧
       stage_entry r Pitch =
       object
         [("marketing_strategies", VArr [VStr "seo"] ∅);
          ("pitch_deck", object [("slides", VArr [] ∅)])] ∧
       get_prop (stage_entry r Pitch) "pitch" = VUndefined.
Proof.
apply (pitch_backfill Samples.legacy_run_context).
- reflexivity.
- intros H. vm_compute in H. discriminate.
- intros H. vm_compute in H. discriminate.
Defined.

(** X8: the normalizer returns its input unchanged exactly in two cases:
    the state section is absent; or the context is an object whose state
    is an object with [stage_outputs] present, and every stage has its
    entry present or its legacy field absent. *)
Theorem normalize_fixed_point context :
  normalizeContext context = Ok context ↔
  ¬ present (state_of context) ∨
  ((∃ props, context = VObj props) ∧
   (∃ props, state_of context = VObj props) ∧
   present (stage_outputs_of context) ∧
   ∀ s, present (stage_entry context s) ∨ ¬ present (legacy_field context s)).
Proof.
unfold present. rewrite normalizeContext_unfold.
destruct (truthy (state_of context)) eqn:Hs; simpl; [|by split; [left|]].
split.
- destruct (backfill_all _ _) as [so|] eqn:Hso; simpl; [|done].
  intros [= Hfix]. right.
  pose proof Hso as Hso'. apply backfill_all_Ok in Hso' as [Ht He].
  specialize (Ht (js_or_empty_truthy _)).
  pose proof (f_equal state_of Hfix) as Hstate.
  rewrite state_of_with_stage_outputs in Hstate.
  pose proof (f_equal stage_outputs_of Hfix) as Hso_eq.
  rewrite stage_outputs_of_with_stage_outputs in Hso_eq. symmetry in Hso_eq.
  split_and!; [by eexists|by eexists|by rewrite Hso_eq|].
  intros s. specialize (He s). rewrite js_or_empty_prop, <- Hso_eq in He.
  unfold stage_entry, legacy_field.
  pose proof (stage_bundle_truthy s (state_of context)) as Hb.
  destruct (truthy (get_prop (stage_outputs_of context) (stage_key s))) eqn:E1;
    [by left|].
  destruct (truthy (get_prop (state_of context) (legacy_key s))) eqn:E2;
    [|by right].
  simpl in He. rewrite He in E1. congruence.
- intros [H|((props & Hc) & (sprops & Hst) & Hso & Hall)]; [done|].
  unfold js_or. rewrite Hso.
  rewrite backfill_all_skip; simpl.
  + f_equal. unfold with_stage_outputs. rewrite Hst; simpl.
    assert (sprops !! "stage_outputs" = Some (stage_outputs_of context)) as Hl.
    { unfold stage_outputs_of, get_prop in *. rewrite Hst in *; simpl in *.
      destruct (sprops !! "stage_outputs"); [done|discriminate]. }
    rewrite (insert_id sprops _ _ Hl).
    assert (own_props context !! "state" = Some (VObj sprops)) as Hl'.
    { unfold state_of, get_prop in Hst.
      destruct (own_props context !! "state"); simpl in Hst;
        [by subst|discriminate]. }
    rewrite (insert_id _ _ _ Hl'). by rewrite Hc.
  + intros s. destruct (Hall s) as [H|H]; [by left|right].
    by apply not_true_is_false.
Qed.

(** X9: whenever the normalizer returns on a context whose state section is
    present, the result is an object whose state is an object, and
    [state.stage_outputs] is present in it: a consumer can read the stage
    entries of a normalized context without a guard. *)
Theorem normalize_result_shape context r :
  present (state_of context) →
  normalizeContext context = Ok r →
  (∃ props, r = VObj props) ∧
  (∃ props, state_of r = VObj props) ∧
  present (stage_outputs_of r).
Proof.
intros Hs Hr.
destruct (normalizeContext_Ok context r Hs Hr) as (so & Hso & ->).
apply backfill_all_Ok in Hso as [Ht _].
split_and!.
- by eexists.
- rewrite state_of_with_stage_outputs. by eexists.
- rewrite stage_outputs_of_with_stage_outputs. apply Ht, js_or_empty_truthy.
Qed.

Lemma normalize_result_shape_witness :
  ∃ r, normalizeContext Fixtures.legacy_context = Ok r ∧
       (∃ props, r = VObj props) ∧
       (∃ props, state_of r = VObj props) ∧
       present (stage_outputs_of r).
Proof.
eexists. split; [vm_compute; reflexivity|].
apply (normalize_result_shape Fixtures.legacy_context);
  [reflexivity|vm_compute; reflexivity].
Defined.

End NormalizerBundles.

(** ** Artifact resolver: what a response carries *)

Section ResolverResponses.

(** A property whose name is not an array index belongs to an object. *)
Lemma named_prop_object v k :
  (∀ i, k ≠ index_key i) → present (get_prop v k) → is_object v = true.
Proof.
intros Hk. unfold present, get_prop.
destruct v as [| |b|n|str|l m|m]; simpl; try done.
destruct (_ !! _) as [x|] eqn:E; simpl; [|done].
apply string_props_indices in E as [i E]. by apply Hk in E.
Qed.

Lemma full_context_not_index i : "full_context" ≠ index_key i.
Proof.
destruct (index_key_head i) as (c & t & -> & Hc).
intros [= <- _]. discriminate.
Qed.

Lemma find_stage_context files f :
  List.find is_stage_context files = Some f →
  f ∈ List.filter (λ f, Str.endsWith f ".json") files ∧
  Str.startsWith f "context_" = true.
Proof.
intros H. apply List.find_some in H as [Hin Hf].
unfold is_stage_context in Hf. apply andb_true_iff in Hf as [He Hs].
split; [|done]. apply list_elem_of_In, filter_In. by split.
Qed.

Lemma find_no_stage_context files f :
  List.find is_stage_context files = None →
  f ∈ List.filter (λ f, Str.endsWith f ".json") files →
  Str.startsWith f "context_" = false.
Proof.
intros H Hin. apply list_elem_of_In, filter_In in Hin as [Hin He].
pose proof (List.find_none _ _ H f Hin) as Hf.
unfold is_stage_context in Hf. by rewrite He in Hf.
Qed.

(** X10: every answer of the per-id route is either its 500 failure or a
    200 response for the id asked for, in which a context is attached only
    if the summary says the run is complete or, with no final context and
    no results, lists a stage-context file; results are attached only if
    the summary has results and is not complete; and nothing is attached
    only if it has neither and lists no stage-context file. *)
Theorem detail_response_shape h id0 :
  Resolver.GET h id0 = load_failure ∨
  ∃ e sub a,
    Resolver.GET h id0 = Json 200 (ExperimentDetail e sub a) ∧
    id e = id0 ∧
    match a with
    | Context _ =>
        hasCompleteContext e = true ∨
        (hasCompleteContext e = false ∧ hasResults e = false ∧
         ∃ f, f ∈ contextFiles e ∧ Str.startsWith f "context_" = true)
    | Results _ => hasCompleteContext e = false ∧ hasResults e = true
    | NoAttachment =>
        hasCompleteContext e = false ∧ hasResults e = false ∧
        ∀ f, f ∈ contextFiles e → Str.startsWith f "context_" = false
    end.
Proof.
destruct (Host.readdir h [id0]) as [entries|] eqn:Hd;
  [|left; by unfold Resolver.GET; rewrite Hd].
destruct (Host.stat h [id0]) as [dirStat|] eqn:Hs;
  [|left; by unfold Resolver.GET; rewrite Hd; simpl; rewrite Hs].
rewrite (Resolver_GET_listed _ _ _ _ Hd Hs). cbv zeta.
set (files := Host.name <$> entries).
destruct (Str.array_includes files "context_final.json") eqn:Hf.
{ unfold context_response.
  destruct (_ ≫= _) as [c|]; [right|by left].
  eexists _, _, _. split; [done|]. split; [done|]. left. exact Hf. }
destruct (Str.array_includes files "results.json") eqn:Hr.
{ unfold results_response.
  match goal with |- context [match ?x with _ => _ end] => destruct x end;
    [right|by left].
  eexists _, _, _. split; [done|]. by split. }
destruct (List.find is_stage_context files) as [f|] eqn:Hfind.
- unfold context_response.
  destruct (_ ≫= _) as [c|]; [right|by left].
  eexists _, _, _. split; [done|]. split; [done|]. right.
  split; [exact Hf|]. split; [exact Hr|].
  exists f. by apply find_stage_context.
- right. eexists _, _, _. split; [done|]. split; [done|].
  split; [exact Hf|]. split; [exact Hr|].
  intros f. by apply find_no_stage_context.
Qed.

(** X11: in a directory with no final context whose results bundle embeds
    a full context that normalizes, the route answers 200 with the bundle
    in which [full_context] is the normalized context and every other
    field is as stored. *)
Theorem results_bundle_normalized h id0 entries dirStat results normal :
  Host.readdir h [id0] = Ok entries →
  Host.stat h [id0] = Ok dirStat →
  "context_final.json" ∉ Host.name <$> entries →
  "results.json" ∈ Host.name <$> entries →
  Host.readJSON h [id0; "results.json"] = Ok results →
  present (get_prop results "full_context") →
  normalizeContext (get_prop results "full_context") = Ok normal →
  ∃ e sub bundle,
    Resolver.GET h id0 = Json 200 (ExperimentDetail e sub (Results bundle)) ∧
    get_prop bundle "full_context" = normal ∧
    ∀ k, k ≠ "full_context" → get_prop bundle k = get_prop results k.
Proof.
intros Hd Hs Hf Hr Hread Hfc Hn.
rewrite (Resolver_GET_listed _ _ _ _ Hd Hs). cbv zeta.
apply array_includes_not_elem_of in Hf. apply array_includes_elem_of in Hr.
rewrite Hf, Hr. unfold results_response. rewrite Hread; simpl.
assert (Ho : is_object results = true)
  by (eapply named_prop_object; [apply full_context_not_index|exact Hfc]).
unfold member. destruct (nullish results) eqn:Hnull; [by destruct results|].
simpl. unfold present in Hfc. rewrite Hfc, Hn; simpl.
destruct (set_prop results "full_context" normal) as [bundle|] eqn:Hset;
  [|by destruct results].
apply set_prop_Ok in Hset as (_ & _ & Hk & Hne). simpl.
by eexists _, _, _.
Qed.

Lemma results_bundle_normalized_witness :
  ∃ e sub bundle,
    Resolver.GET Samples.stage_run_host
      "stage_run_idea_development_20240104_101500" =
      Json 200 (ExperimentDetail e sub (Results bundle)) ∧
    get_prop bundle "full_context" =
      with_stage_outputs Fixtures.legacy_context
        (object [("idea_development",
                  idea_development_bundle (state_of Fixtures.legacy_context))]) ∧
    ∀ k, k ≠ "full_context" →
         get_prop bundle k = get_prop Samples.results_with_context k.
Proof.
apply (results_bundle_normalized Samples.stage_run_host
         "stage_run_idea_development_20240104_101500"
         [Host.Dirent "results.json" false] "2024-01-04T10:15:00.000Z"
         Samples.results_with_context).
- reflexivity.
- reflexivity.
- intros H. apply list_elem_of_singleton in H. discriminate.
- apply list_elem_of_here.
- reflexivity.
- reflexivity.
- vm_compute. reflexivity.
Defined.

(** X12: when [context_final.json] is listed but cannot be read, parsed or
    normalized, the route answers with its 500 failure; it does not fall
    back to the results bundle or to a stage-context document. *)
Theorem final_context_failure_is_final h id0 entries dirStat err :
  Host.readdir h [id0] = Ok entries →
  Host.stat h [id0] = Ok dirStat →
  "context_final.json" ∈ Host.name <$> entries →
  Host.readJSON h [id0; "context_final.json"] ≫= normalizeContext = Throw err →
  Resolver.GET h id0 = load_failure.
Proof.
intros Hd Hs Hf Hfail.
rewrite (Resolver_GET_listed _ _ _ _ Hd Hs). cbv zeta.
apply array_includes_elem_of in Hf. rewrite Hf.
unfold context_response. by rewrite Hfail.
Qed.

Lemma final_context_failure_is_final_witness :
  Host.readJSON Samples.stage_run_host
    ["experiment_20240103_000000"; "context_pitch.json"]
    = Ok Fixtures.legacy_context ∧
  Resolver.GET Samples.stage_run_host "experiment_20240103_000000"
    = load_failure.
Proof.
split; [reflexivity|].
apply (final_context_failure_is_final Samples.stage_run_host
         "experiment_20240103_000000"
         [Host.Dirent "context_final.json" false;
          Host.Dirent "context_pitch.json" false]
         "2024-01-03T00:00:00.000Z" SyntaxError).
- reflexivity.
- reflexivity.
- apply list_elem_of_here.
- reflexivity.
Defined.

End ResolverResponses.

(** ** Repository scanner: what is listed, and when *)

Section ScannerListing.

(** What the loop adds for the entries it visits. *)
Lemma scan_added h entries experiments l :
  Scanner.scan h entries experiments = Ok l →
  ∃ added,
    l = experiments ++ added ∧
    id <$> added =
      Host.name <$>
        List.filter (λ entry, Host.isDirectory entry
                              && negb (Str.startsWith (Host.name entry) "."))
          entries ∧
    Forall (λ e, ∃ listing dirStat,
              Host.readdir h [id e] = Ok listing ∧
              Host.stat h [id e] = Ok dirStat ∧
              e = Experiment (id e) (listing_kind (id e))
                    (hasStatistics (summary_of (id e) (Host.name <$> listing) dirStat))
                    (hasCompleteContext (summary_of (id e) (Host.name <$> listing) dirStat))
                    (hasResults (summary_of (id e) (Host.name <$> listing) dirStat))
                    (contextFiles (summary_of (id e) (Host.name <$> listing) dirStat))
                    dirStat)
      added.
Proof.
revert experiments l. induction entries as [|entry entries IH];
  intros experiments l; simpl.
- intros [= <-]. exists []. by rewrite app_nil_r.
- destruct (_ && _).
  + destruct (Host.readdir h _) as [listing|] eqn:Hd; simpl; [|done].
    destruct (Host.stat h _) as [dirStat|] eqn:Hs; simpl; [|done].
    intros H. apply IH in H as (added & -> & Hids & Hall).
    eexists (_ :: added). split; [by rewrite <- app_assoc|].
    split; [rewrite fmap_cons, Hids; by simpl|].
    constructor; [|done]. by exists listing, dirStat.
  + apply IH.
Qed.

Lemma scan_succeeds h entries experiments :
  (∃ l, Scanner.scan h entries experiments = Ok l) ↔
  ∀ entry, entry ∈ entries →
    Host.isDirectory entry && negb (Str.startsWith (Host.name entry) ".")
      = true →
    (∃ listing, Host.readdir h [Host.name entry] = Ok listing) ∧
    (∃ dirStat, Host.stat h [Host.name entry] = Ok dirStat).
Proof.
revert experiments. induction entries as [|entry entries IH];
  intros experiments; simpl.
- split; [by intros _ entry ?%elem_of_nil|eauto].
- destruct (_ && _) eqn:Hv.
  + destruct (Host.readdir h _) as [listing|] eqn:Hd; simpl.
    * destruct (Host.stat h _) as [dirStat|] eqn:Hs; simpl.
      -- rewrite IH. split.
         ++ intros H e [->|He]%elem_of_cons Hve; [eauto|by apply H].
         ++ intros H e He. apply H. by right.
      -- split; [by intros [l ?]|]. intros H.
         destruct (H entry) as [_ [? Hs']]; [by left|done|congruence].
    * split; [by intros [l ?]|]. intros H.
      destruct (H entry) as [[? Hd'] _]; [by left|done|congruence].
  + rewrite IH. split.
    * intros H e [->|He]%elem_of_cons Hve; [congruence|by apply H].
    * intros H e He. apply H. by right.
Qed.

(** X13: when the listing route answers 200, the ids it lists are the
    names of the entries of the experiments directory that are directories
    and do not begin with a dot, each once: files and hidden directories
    are never listed, and no visible directory is left out. *)
Theorem listing_ids h experiments :
  Scanner.GET h = Json 200 (ExperimentList experiments) →
  ∃ entries,
    Host.readdir h [] = Ok entries ∧
    id <$> experiments ≡ₚ
      Host.name <$>
        List.filter (λ entry, Host.isDirectory entry
                              && negb (Str.startsWith (Host.name entry) "."))
          entries.
Proof.
unfold Scanner.GET.
destruct (Host.readdir h []) as [entries|]; simpl; [|done].
destruct (Scanner.scan h entries []) as [scanned|] eqn:E; simpl; [|done].
intros [= <-]. exists entries. split; [done|].
apply scan_added in E as (added & -> & Hids & _).
by rewrite sort_Permutation, <- Hids.
Qed.

Lemma listing_ids_witness :
  ∃ entries,
    Host.readdir Fixtures.host [] = Ok entries ∧
    id <$> Fixtures.listing ≡ₚ
      Host.name <$>
        List.filter (λ entry, Host.isDirectory entry
                              && negb (Str.startsWith (Host.name entry) "."))
          entries.
Proof.
apply (listing_ids Fixtures.host Fixtures.listing).
vm_compute. reflexivity.
Defined.

(** X14: the listing route answers 200 exactly when the experiments
    directory can be listed and every visible directory in it can be
    listed and stat'ed; in every other case it answers with its 500
    failure, so one directory that fails takes the whole listing with
    it. *)
Theorem listing_succeeds_iff h :
  ((∃ experiments, Scanner.GET h = Json 200 (ExperimentList experiments)) ↔
   ∃ entries,
     Host.readdir h [] = Ok entries ∧
     ∀ entry, entry ∈ entries →
       Host.isDirectory entry && negb (Str.startsWith (Host.name entry) ".")
         = true →
       (∃ listing, Host.readdir h [Host.name entry] = Ok listing) ∧
       (∃ dirStat, Host.stat h [Host.name entry] = Ok dirStat)) ∧
  ((∃ experiments, Scanner.GET h = Json 200 (ExperimentList experiments)) ∨
   Scanner.GET h = Json 500 (ErrorBody "Failed to load experiments")).
Proof.
unfold Scanner.GET.
destruct (Host.readdir h []) as [entries|]; simpl.
2:{ split; [|by right]. split; [by intros [? ?]|by intros (? & ? & _)]. }
pose proof (scan_succeeds h entries []) as Hscan.
destruct (Scanner.scan h entries []) as [scanned|]; simpl.
- split; [|left; eauto]. split; [|eauto].
  intros _. exists entries. split; [done|]. apply Hscan. eauto.
- split; [|by right]. split; [by intros [? ?]|].
  intros (? & [= <-] & H). apply Hscan in H as [? ?]. done.
Qed.

End ScannerListing.

Section RoutesAgree.

Lemma experiment_prefix_excludes_stage_run s :
  Str.startsWith s "experiment_" = true →
  Str.startsWith s "stage_run_" = false.
Proof.
unfold Str.startsWith. destruct s as [|c s]; [done|].
cbn [String.prefix].
destruct (ascii_dec "e" c) as [<-|]; [|done]. intros _.
by destruct (ascii_dec "s" "e").
Qed.

(** X15: for every summary of the listing, a 200 answer of the per-id
    route for its id carries a summary with the same id, flags, context
    files and timestamp; the two summaries have the same kind exactly when
    the id begins with [experiment_] or with [stage_run_]. *)
Theorem listing_and_detail_agree h experiments e e' sub a :
  Scanner.GET h = Json 200 (ExperimentList experiments) →
  e ∈ experiments →
  Resolver.GET h (id e) = Json 200 (ExperimentDetail e' sub a) →
  id e' = id e ∧
  hasStatistics e' = hasStatistics e ∧
  hasCompleteContext e' = hasCompleteContext e ∧
  hasResults e' = hasResults e ∧
  contextFiles e' = contextFiles e ∧
  timestamp e' = timestamp e ∧
  (type e' = type e ↔
   Str.startsWith (id e) "experiment_" = true ∨
   Str.startsWith (id e) "stage_run_" = true).
Proof.
unfold Scanner.GET.
destruct (Host.readdir h []) as [entries|]; simpl; [|done].
destruct (Scanner.scan h entries []) as [scanned|] eqn:E; simpl; [|done].
intros [= <-] He Hdetail.
apply scan_added in E as (added & -> & _ & Hall).
rewrite sort_Permutation in He. simpl in He.
eapply Forall_forall in Hall as (listing & dirStat & Hd & Hs & Heq); [|exact He].
rewrite (Resolver_GET_listed _ _ _ _ Hd Hs) in Hdetail. cbv zeta in Hdetail.
assert (e' = summary_of (id e) (Host.name <$> listing) dirStat) as ->.
{ revert Hdetail. unfold context_response, results_response.
  repeat (match goal with |- context [match ?x with _ => _ end] =>
            destruct x end; try done);
    by intros [= <- <- <-]. }
pose proof (f_equal type Heq) as Ht.
pose proof (f_equal hasStatistics Heq) as H1.
pose proof (f_equal hasCompleteContext Heq) as H2.
pose proof (f_equal hasResults Heq) as H3.
pose proof (f_equal contextFiles Heq) as H4.
pose proof (f_equal timestamp Heq) as H5.
simpl in Ht, H1, H2, H3, H4, H5. simpl. split_and!; try done.
rewrite Ht. unfold listing_kind.
destruct (Str.startsWith (id e) "experiment_") eqn:E1.
- rewrite (experiment_prefix_excludes_stage_run _ E1). split; [by left|done].
- destruct (Str.startsWith (id e) "stage_run_"); split; try done.
  + by right.
  + by intros [|].
Qed.

Lemma listing_and_detail_agree_witness :
  ∃ e e' sub a,
    e ∈ Fixtures.listing ∧ id e = "experiment_20240101_000000" ∧
    Resolver.GET Fixtures.host "experiment_20240101_000000" =
      Json 200 (ExperimentDetail e' sub a) ∧
    id e' = id e ∧
    hasStatistics e' = hasStatistics e ∧
    hasCompleteContext e' = hasCompleteContext e ∧
    hasResults e' = hasResults e ∧
    contextFiles e' = contextFiles e ∧
    timestamp e' = timestamp e ∧
    (type e' = type e ↔
     Str.startsWith (id e) "experiment_" = true ∨
     Str.startsWith (id e) "stage_run_" = true).
Proof.
pose (e := Experiment "experiment_20240101_000000" full true true false
             ["context_final.json"; "context_idea_development.json";
              "statistics.json"] "2024-01-01T00:00:00.000Z").
assert (Hin : e ∈ Fixtures.listing).
{ do 2 apply list_elem_of_further. apply list_elem_of_here. }
assert (HG : ∃ a, Resolver.GET Fixtures.host (id e) =
               Json 200 (ExperimentDetail e
                 (subfolders_of ["context_final.json";
                                 "context_idea_development.json";
                                 "statistics.json"]) a)).
{ eexists. vm_compute. reflexivity. }
destruct HG as [a HG].
eexists e, e, _, a.
split; [exact Hin|]. split; [reflexivity|]. split; [exact HG|].
eapply (listing_and_detail_agree Fixtures.host Fixtures.listing e e _ a).
- vm_compute. reflexivity.
- exact Hin.
- exact HG.
Defined.

End RoutesAgree.

(** ** Design assets: calls, outcomes, content type *)

Section AssetBehaviour.

Lemma prefix_split p s : String.prefix p s = true → ∃ r, s = p +:+ r.
Proof.
revert s. induction p as [|c p IH]; intros s; [by exists s|].
destruct s as [|d s]; [done|]. cbn [String.prefix].
destruct (ascii_dec c d) as [<-|]; [|done].
intros H. apply IH in H as [r ->]. by exists r.
Qed.

Lemma occurs_includes s p : Str.includes s p = true → occurs_in p s.
Proof.
induction s as [|c s IH]; rewrite includes_unfold; intros H.
- rewrite orb_false_r in H. apply prefix_split in H as [r ->].
  by exists EmptyString, r.
- apply orb_true_iff in H as [H|H].
  + apply prefix_split in H as [r ->]. by exists EmptyString, r.
  + apply IH in H as (before & after & ->).
    by exists (String c before), after.
Qed.

Lemma includes_iff s p : Str.includes s p = true ↔ occurs_in p s.
Proof. split; [apply occurs_includes|apply includes_occurs]. Qed.

Lemma truthy_string s : truthy (VStr s) = false ↔ s = EmptyString.
Proof. destruct s; simpl; split; done. Qed.

(** The two guards of the route, as a proposition. *)
Lemma asset_guards id filename :
  negb (truthy (VStr id)) || negb (truthy (VStr filename))
  || (Str.includes id ".." || Str.includes filename "..") = true ↔
  id = EmptyString ∨ filename = EmptyString ∨
  occurs_in ".." id ∨ occurs_in ".." filename.
Proof.
rewrite !orb_true_iff, !negb_true_iff, !truthy_string, !includes_iff.
tauto.
Qed.

(** X16: every file-system call the design-asset route makes is the
    existence check or the read of [<id>/designs/<filename>], for an id
    and a file name that are not empty and contain no [..]; the read is
    made only after the existence check has succeeded. *)
Theorem asset_calls_confined h id filename call :
  call ∈ (Assets.GET h id filename).2 →
  (call = Assets.Access [id; "designs"; filename] ∨
   call = Assets.ReadFile [id; "designs"; filename] ∧
   Host.access h [id; "designs"; filename] = Ok ()) ∧
  id ≠ EmptyString ∧ filename ≠ EmptyString ∧
  ¬ occurs_in ".." id ∧ ¬ occurs_in ".." filename.
Proof.
pose proof (asset_guards id filename) as Hg. unfold Assets.GET.
destruct (negb (truthy (VStr id)) || negb (truthy (VStr filename))) eqn:G1;
  simpl; [by intros ?%elem_of_nil|].
destruct (Str.includes id ".." || Str.includes filename "..") eqn:G2;
  simpl; [by intros ?%elem_of_nil|].
simpl in Hg. intros Hcall.
assert (Hok : ¬ (id = EmptyString ∨ filename = EmptyString ∨
                 occurs_in ".." id ∨ occurs_in ".." filename))
  by (by intros ?%Hg).
split; [|tauto].
destruct (Host.access h _) as [[]|] eqn:Ha; simpl in Hcall.
- destruct (Host.readFile h _); simpl in Hcall;
    apply elem_of_cons in Hcall as [->|Hcall]; try (by left);
    apply list_elem_of_singleton in Hcall as ->; by right.
- apply list_elem_of_singleton in Hcall as ->. by left.
Qed.

Lemma asset_calls_confined_witness :
  (Assets.ReadFile ["experiment_20240101_000000"; "designs"; "home.final.JPG"]
   = Assets.Access ["experiment_20240101_000000"; "designs"; "home.final.JPG"]
   ∨ Assets.ReadFile
       ["experiment_20240101_000000"; "designs"; "home.final.JPG"]
     = Assets.ReadFile
         ["experiment_20240101_000000"; "designs"; "home.final.JPG"] ∧
     Host.access Samples.asset_host
       ["experiment_20240101_000000"; "designs"; "home.final.JPG"] = Ok ()) ∧
  "experiment_20240101_000000" ≠ EmptyString ∧
  "home.final.JPG" ≠ EmptyString ∧
  ¬ occurs_in ".." "experiment_20240101_000000" ∧
  ¬ occurs_in ".." "home.final.JPG".
Proof.
apply (asset_calls_confined Samples.asset_host
         "experiment_20240101_000000" "home.final.JPG").
vm_compute. apply list_elem_of_further, list_elem_of_here.
Defined.

(** X17: the design-asset route has three outcomes and no other: a 400
    exactly when the id or the file name is empty or contains [..]; a 404
    exactly when it is not rejected and the existence check or the read
    fails, whatever the failure; and otherwise the bytes of the file, as
    read, with the content type of the file name. *)
Theorem asset_outcome h id filename :
  (error_kind_of (Assets.GET h id filename).1 = Some BadRequest ↔
   id = EmptyString ∨ filename = EmptyString ∨
   occurs_in ".." id ∨ occurs_in ".." filename) ∧
  (error_kind_of (Assets.GET h id filename).1 = Some NotFound ↔
   ¬ (id = EmptyString ∨ filename = EmptyString ∨
      occurs_in ".." id ∨ occurs_in ".." filename) ∧
   ((∃ err, Host.access h [id; "designs"; filename] = Throw err) ∨
    (∃ err, Host.readFile h [id; "designs"; filename] = Throw err))) ∧
  (error_kind_of (Assets.GET h id filename).1 = None ↔
   ∃ imageBuffer,
     Host.access h [id; "designs"; filename] = Ok () ∧
     Host.readFile h [id; "designs"; filename] = Ok imageBuffer ∧
     (Assets.GET h id filename).1 = Image imageBuffer (Assets.contentType filename)) ∧
  error_kind_of (Assets.GET h id filename).1 ≠ Some ReadError.
Proof.
pose proof (asset_guards id filename) as Hg. unfold Assets.GET.
destruct (negb (truthy (VStr id)) || negb (truthy (VStr filename))) eqn:G1;
  simpl in *.
{ apply proj1 in Hg. specialize (Hg eq_refl).
  split_and!; [done|split; [done|tauto]| |done].
  split; [done|]. intros (b & Ha & Hr & [=]). }
destruct (Str.includes id ".." || Str.includes filename "..") eqn:G2;
  simpl in *.
{ apply proj1 in Hg. specialize (Hg eq_refl).
  split_and!; [done|split; [done|tauto]| |done].
  split; [done|]. intros (b & Ha & Hr & [=]). }
assert (Hok : ¬ (id = EmptyString ∨ filename = EmptyString ∨
                 occurs_in ".." id ∨ occurs_in ".." filename))
  by (by intros ?%Hg).
destruct (Host.access h _) as [[]|ea] eqn:Ha; simpl.
- destruct (Host.readFile h _) as [bytes|er] eqn:Hr; simpl.
  + split_and!; [split; [done|tauto]| | |done].
    * split; [done|]. by intros (_ & [[? ?]|[? ?]]).
    * split; [by exists bytes|done].
  + split_and!; [split; [done|tauto]| | |done].
    * split; [|done]. intros _. split; [done|]. right. by exists er.
    * split; [done|]. by intros (b & _ & ? & _).
- split_and!; [split; [done|tauto]| | |done].
  + split; [|done]. intros _. split; [done|]. left. by exists ea.
  + split; [done|]. by intros (b & ? & _).
Qed.

End AssetBehaviour.

Section AssetContentType.

Lemma string_app_cons c (s t : string) : String c s +:+ t = String c (s +:+ t).
Proof. reflexivity. Qed.

Lemma string_app_assoc (s t u : string) : (s +:+ t) +:+ u = s +:+ t +:+ u.
Proof.
induction s as [|c s IH]; [done|]. rewrite !string_app_cons. by f_equal.
Qed.

Lemma string_app_nil_r (s : string) : s +:+ EmptyString = s.
Proof.
induction s as [|c s IH]; [done|]. rewrite string_app_cons. by f_equal.
Qed.

Lemma last_segment_app s t acc :
  Str.last_segment (s +:+ t) acc = Str.last_segment t (Str.last_segment s acc).
Proof.
revert acc. induction s as [|c s IH]; intros acc; [done|].
rewrite string_app_cons. simpl. destruct (Ascii.eqb c "."); apply IH.
Qed.

Lemma toLowerCase_app s t :
  Str.toLowerCase (s +:+ t) = Str.toLowerCase s +:+ Str.toLowerCase t.
Proof.
induction s as [|c s IH]; [done|]. rewrite string_app_cons. simpl.
by rewrite string_app_cons, IH.
Qed.

Lemma no_char_cons sep c s :
  ¬ occurs_in (String sep EmptyString) (String c s) ↔
  c ≠ sep ∧ ¬ occurs_in (String sep EmptyString) s.
Proof.
split.
- intros H. split.
  + intros ->. apply H. by exists EmptyString, s.
  + intros (before & after & ->). apply H.
    by exists (String c before), after.
- intros [Hc Hs] (before & after & Heq). destruct before as [|d before].
  + rewrite string_app_cons in Heq. by injection Heq as ->.
  + rewrite string_app_cons in Heq. injection Heq as -> ->.
    apply Hs. by exists before, after.
Qed.

Lemma last_segment_no_dot s acc :
  ¬ occurs_in "." s → Str.last_segment s acc = acc +:+ s.
Proof.
revert acc. induction s as [|c s IH]; intros acc H; simpl.
- by rewrite string_app_nil_r.
- apply no_char_cons in H as [Hc Hs].
  apply Ascii.eqb_neq in Hc as ->.
  rewrite (IH _ Hs). by rewrite string_app_assoc.
Qed.

Lemma lower_unit_dot c : Str.lower_unit c = "."%char ↔ c = "."%char.
Proof.
destruct c as [[] [] [] [] [] [] [] []]; vm_compute; split; congruence.
Qed.

Lemma toLowerCase_no_dot s :
  ¬ occurs_in "." s → ¬ occurs_in "." (Str.toLowerCase s).
Proof.
induction s as [|c s IH]; [done|]. simpl.
rewrite !no_char_cons, lower_unit_dot. intros [Hc Hs]. by split; [|apply IH].
Qed.

(** X18: the content type of a design asset is decided by what follows
    the last dot of the file name, compared without regard to case: a
    name [base.ext], where [ext] has no dot, is served with the type of
    [ext], which is image/jpeg for jpg and jpeg, image/gif for gif,
    image/webp for webp, and image/png for anything else.  The same holds
    of a name without any dot, which is its own extension. *)
Theorem content_type_by_extension base ext :
  ¬ occurs_in "." ext →
  Assets.contentType (base +:+ "." +:+ ext) = Assets.contentType ext ∧
  (Str.toLowerCase ext ∈ ["jpg"; "jpeg"] →
   Assets.contentType ext = "image/jpeg") ∧
  (Str.toLowerCase ext = "gif" → Assets.contentType ext = "image/gif") ∧
  (Str.toLowerCase ext = "webp" → Assets.contentType ext = "image/webp") ∧
  (Str.toLowerCase ext ∉ ["jpg"; "jpeg"; "gif"; "webp"] →
   Assets.contentType ext = "image/png").
Proof.
intros Hext.
assert (Hseg : ∀ acc, Str.last_segment (Str.toLowerCase ext) acc
                      = acc +:+ Str.toLowerCase ext)
  by (intros acc; by apply last_segment_no_dot, toLowerCase_no_dot).
assert (Hown : Str.last_segment (Str.toLowerCase ext) EmptyString
               = Str.toLowerCase ext) by apply Hseg.
split.
{ unfold Assets.contentType.
  rewrite !toLowerCase_app, !last_segment_app.
  change (Str.toLowerCase ".") with ".".
  by change (Str.last_segment "." ?acc) with EmptyString. }
unfold Assets.contentType. rewrite Hown.
split_and!.
- intros [->| ->%list_elem_of_singleton]%elem_of_cons; done.
- by intros ->.
- by intros ->.
- intros Hnot.
  repeat match goal with
  | |- context [String.eqb ?a ?b] =>
      destruct (String.eqb_spec a b) as [Heq|_];
      [exfalso; apply Hnot; rewrite Heq; set_solver|]
  end.
  done.
Qed.

Lemma content_type_by_extension_witness :
  ¬ occurs_in "." "JPG" ∧
  Assets.contentType ("home.final" +:+ "." +:+ "JPG") = "image/jpeg".
Proof.
assert (H : ¬ occurs_in "." "JPG").
{ rewrite <- includes_iff. by vm_compute. }
split; [exact H|].
destruct (content_type_by_extension "home.final" "JPG" H) as (-> & Hj & _).
apply Hj. vm_compute. apply list_elem_of_here.
Defined.

End AssetContentType.

(** ** The document routes next to the per-id route *)

Section DocumentRoutes.

Lemma string_rev_app_acc s acc :
  String.rev_app s acc = String.rev s +:+ acc.
Proof.
unfold String.rev. revert acc. induction s as [|c s IH]; intros acc; [done|].
simpl. by rewrite (IH (String c acc)), (IH (String c EmptyString)),
  string_app_assoc.
Qed.

Lemma string_rev_cons c s :
  String.rev (String c s) = String.rev s +:+ String c EmptyString.
Proof. unfold String.rev at 1. simpl. apply string_rev_app_acc. Qed.

Lemma string_rev_app s t :
  String.rev (s +:+ t) = String.rev t +:+ String.rev s.
Proof.
induction s as [|c s IH]; [by rewrite string_app_nil_r|].
by rewrite string_app_cons, !string_rev_cons, IH, string_app_assoc.
Qed.

Lemma string_rev_involutive s : String.rev (String.rev s) = s.
Proof.
induction s as [|c s IH]; [done|].
by rewrite string_rev_cons, string_rev_app, IH.
Qed.

Lemma string_app_inv_r (a b c : string) : a +:+ c = b +:+ c → a = b.
Proof.
intros H. apply (f_equal String.rev) in H. rewrite !string_rev_app in H.
apply String.app_inj in H.
by rewrite <- (string_rev_involutive a), H, string_rev_involutive.
Qed.

Lemma endsWith_split s p : Str.endsWith s p = true → ∃ q, s = q +:+ p.
Proof.
unfold Str.endsWith. intros [r Hr]%prefix_split.
exists (String.rev r).
by rewrite <- (string_rev_involutive s), Hr, string_rev_app,
  string_rev_involutive.
Qed.

Lemma endsWith_append q p : Str.endsWith (q +:+ p) p = true.
Proof. unfold Str.endsWith. rewrite string_rev_app. apply prefix_append. Qed.

(** Two ways of cutting one string: one of the two left parts is a prefix
    of the other. *)
Lemma app_eq_app (p r q s : string) :
  p +:+ r = q +:+ s →
  (∃ t, q = p +:+ t ∧ r = t +:+ s) ∨
  (∃ c t, p = q +:+ String c t ∧ s = String c t +:+ r).
Proof.
revert q. induction p as [|c p IH]; intros q H.
- left. by exists q.
- destruct q as [|d q].
  + right. by exists c, p.
  + rewrite !string_app_cons in H. injection H as <- H.
    apply IH in H as [(t & -> & ->)|(c' & t & -> & ->)].
    * left. by exists t.
    * right. by exists c', t.
Qed.

Lemma stage_context_name f :
  is_stage_context f = true ↔ ∃ stage, f = "context_" +:+ stage +:+ ".json".
Proof.
split.
- unfold is_stage_context. intros [He Hs]%andb_true_iff.
  apply endsWith_split in He as [q Hq].
  apply prefix_split in Hs as [r Hr]. rewrite Hr in Hq.
  apply app_eq_app in Hq as [(t & -> & ->)|(c & t & Hp & Hj)].
  + by exists t.
  + exfalso. rewrite string_app_cons in Hj. injection Hj as <- _.
    assert (Str.includes "context_" "." = true) as [=].
    apply includes_occurs. by exists q, t.
- intros [stage ->]. unfold is_stage_context. apply andb_true_iff. split.
  + rewrite <- string_app_assoc. apply endsWith_append.
  + apply prefix_append.
Qed.

(** X19: a context attached by the per-id route is the normalized form of
    a document the context route serves with status 200 for the same id
    and some stage whose file [context_<stage>.json] is among the
    summary's context files; for a complete run the stage is [final]. *)
Theorem attached_context_is_stage_document h id0 e sub context :
  Resolver.GET h id0 = Json 200 (ExperimentDetail e sub (Context context)) →
  ∃ stage raw,
    "context_" +:+ stage +:+ ".json" ∈ contextFiles e ∧
    Documents.context_GET h id0 stage = (200, raw) ∧
    normalizeContext raw = Ok context ∧
    (hasCompleteContext e = true → stage = "final").
Proof.
destruct (Host.readdir h [id0]) as [entries|] eqn:Hd;
  [|by unfold Resolver.GET; rewrite Hd].
destruct (Host.stat h [id0]) as [dirStat|] eqn:Hs;
  [|by unfold Resolver.GET; rewrite Hd; simpl; rewrite Hs].
rewrite (Resolver_GET_listed _ _ _ _ Hd Hs). cbv zeta.
set (files := Host.name <$> entries).
assert (Hctx : ∀ stage,
  context_response h (summary_of id0 files dirStat) (subfolders_of files)
    [id0; "context_" +:+ stage +:+ ".json"]
    = Json 200 (ExperimentDetail e sub (Context context)) →
  ∃ raw, Documents.context_GET h id0 stage = (200, raw) ∧
         normalizeContext raw = Ok context ∧
         e = summary_of id0 files dirStat).
{ intros stage. unfold context_response, Documents.context_GET.
  destruct (Host.readJSON h _) as [raw|]; simpl; [|done].
  destruct (normalizeContext raw) as [c|] eqn:Hn; [|done].
  intros [= <- _ <-]. by exists raw. }
destruct (Str.array_includes files "context_final.json") eqn:Hf.
{ intros (raw & Hraw & Hn & ->)%(Hctx "final").
  exists "final", raw. split_and!; [|done..].
  apply list_elem_of_In, filter_In. split; [|done].
  by apply list_elem_of_In, array_includes_elem_of. }
destruct (Str.array_includes files "results.json") eqn:Hr.
{ unfold results_response.
  match goal with |- context [match ?x with _ => _ end] => destruct x end;
    done. }
destruct (List.find is_stage_context files) as [f|] eqn:Hfind; [|done].
pose proof (find_stage_context _ _ Hfind) as [Hin _].
apply List.find_some in Hfind as [_ [stage ->]%stage_context_name].
intros (raw & Hraw & Hn & ->)%Hctx.
exists stage, raw. split_and!; [done..|].
simpl. fold files. by rewrite Hf.
Qed.

Lemma attached_context_is_stage_document_witness :
  ∃ e sub context stage raw,
    Resolver.GET Samples.stage_run_host "stage_run_pitch_20240105_000000"
      = Json 200 (ExperimentDetail e sub (Context context)) ∧
    "context_" +:+ stage +:+ ".json" ∈ contextFiles e ∧
    Documents.context_GET Samples.stage_run_host
      "stage_run_pitch_20240105_000000" stage = (200, raw) ∧
    normalizeContext raw = Ok context ∧
    (hasCompleteContext e = true → stage = "final").
Proof.
assert (HG : ∃ e sub context,
  Resolver.GET Samples.stage_run_host "stage_run_pitch_20240105_000000"
    = Json 200 (ExperimentDetail e sub (Context context))).
{ eexists _, _, _. vm_compute. reflexivity. }
destruct HG as (e & sub & context & HG).
destruct (attached_context_is_stage_document _ _ _ _ _ HG)
  as (stage & raw & H).
by exists e, sub, context, stage, raw.
Defined.

(** X20: for an id under which nothing can be listed or read (no such
    directory), the routes do not agree on the status: the per-id route
    and the context route, whatever the stage, answer 500, the statistics
    route answers 404, and the design-asset route answers 404 for every
    file name it does not reject with 400. *)
Theorem missing_experiment_statuses h id0 :
  (∀ p, ∃ err, Host.readdir h (id0 :: p) = Throw err) →
  (∀ p, ∃ err, Host.readJSON h (id0 :: p) = Throw err) →
  (∀ p, ∃ err, Host.access h (id0 :: p) = Throw err) →
  status_of (Resolver.GET h id0) = 500 ∧
  (∀ stage, (Documents.context_GET h id0 stage).1 = 500) ∧
  (Documents.statistics_GET h id0).1 = 404 ∧
  (∀ filename, status_of (Assets.GET h id0 filename).1 = 400 ∨
               status_of (Assets.GET h id0 filename).1 = 404).
Proof.
intros Hdir Hjson Hacc. split_and!.
- destruct (Hdir []) as [err H]. unfold Resolver.GET. by rewrite H.
- intros stage. unfold Documents.context_GET.
  by destruct (Hjson ["context_" +:+ stage +:+ ".json"]) as [err ->].
- unfold Documents.statistics_GET.
  by destruct (Hjson ["statistics.json"]) as [err ->].
- intros filename. unfold Assets.GET.
  destruct (_ || _); [by left|]. destruct (_ || _); [by left|].
  destruct (Hacc ["designs"; filename]) as [err ->]. by right.
Qed.

Lemma missing_experiment_statuses_witness :
  status_of (Resolver.GET Fixtures.host "experiment_19990101_000000") = 500 ∧
  (∀ stage, (Documents.context_GET Fixtures.host
               "experiment_19990101_000000" stage).1 = 500) ∧
  (Documents.statistics_GET Fixtures.host "experiment_19990101_000000").1
    = 404 ∧
  (∀ filename,
     status_of (Assets.GET Fixtures.host
                  "experiment_19990101_000000" filename).1 = 400 ∨
     status_of (Assets.GET Fixtures.host
                  "experiment_19990101_000000" filename).1 = 404).
Proof.
apply (missing_experiment_statuses Fixtures.host
         "experiment_19990101_000000").
- intros p. exists SystemError. by destruct p.
- intros p. exists SystemError. by destruct p.
- intros p. exists SystemError. by destruct p.
Defined.

End DocumentRoutes.

(** ** The pages: timestamps and image links *)

Section PageHelpers.

Lemma string_length_app (s t : string) :
  String.length (s +:+ t) = String.length s + String.length t.
Proof.
induction s as [|c s IH]; [done|]. rewrite string_app_cons. simpl.
by rewrite IH.
Qed.

Lemma substring_app_skip p k n s :
  String.substring (String.length p + k) n (p +:+ s) = String.substring k n s.
Proof. induction p as [|c p IH]; [done|]. rewrite string_app_cons. apply IH. Qed.

Lemma substring_prefix a b :
  String.substring 0 (String.length a) (a +:+ b) = a.
Proof.
induction a as [|c a IH]; [by destruct b|].
rewrite string_app_cons. simpl. by rewrite IH.
Qed.

Lemma substring_all s : String.substring 0 (String.length s) s = s.
Proof.
rewrite <- (string_app_nil_r s) at 2. apply substring_prefix.
Qed.

Lemma substring_middle a b c :
  String.substring (String.length a) (String.length b) (a +:+ b +:+ c) = b.
Proof.
rewrite <- (Nat.add_0_r (String.length a)), substring_app_skip.
apply substring_prefix.
Qed.

Lemma substring_suffix a b :
  String.substring (String.length a) (String.length b) (a +:+ b) = b.
Proof.
rewrite <- (Nat.add_0_r (String.length a)), substring_app_skip.
apply substring_all.
Qed.

Lemma split_nonempty sep s : Text.split sep s ≠ [].
Proof.
destruct s as [|c s]; simpl; [done|].
destruct (Ascii.eqb c sep); [done|]. by destruct (Text.split sep s).
Qed.

Lemma split_no_sep sep s :
  ¬ occurs_in (String sep EmptyString) s → Text.split sep s = [s].
Proof.
induction s as [|c s IH]; [done|].
intros [Hc Hs]%no_char_cons. simpl.
apply Ascii.eqb_neq in Hc as ->. by rewrite (IH Hs).
Qed.

Lemma split_app_sep sep a b :
  Text.split sep (a +:+ String sep b) = Text.split sep a ++ Text.split sep b.
Proof.
induction a as [|c a IH].
- simpl. by rewrite Ascii.eqb_refl.
- rewrite string_app_cons. simpl. rewrite IH.
  destruct (Ascii.eqb c sep); [done|].
  pose proof (split_nonempty sep a). by destruct (Text.split sep a).
Qed.

Lemma split_app_no_sep sep a b :
  ¬ occurs_in (String sep EmptyString) a →
  ∃ piece pieces,
    Text.split sep b = piece :: pieces ∧
    Text.split sep (a +:+ b) = (a +:+ piece) :: pieces.
Proof.
induction a as [|c a IH].
- intros _. pose proof (split_nonempty sep b).
  destruct (Text.split sep b) as [|piece pieces] eqn:E; [done|].
  by exists piece, pieces.
- intros [Hc Ha]%no_char_cons.
  destruct (IH Ha) as (piece & pieces & Hb & Hab).
  exists piece, pieces. split; [done|].
  rewrite !string_app_cons. simpl.
  apply Ascii.eqb_neq in Hc as ->. by rewrite Hab.
Qed.

(** A string either has no separator or can be cut at its last one. *)
Lemma last_separator sep s :
  ¬ occurs_in (String sep EmptyString) s ∨
  ∃ dir piece,
    s = dir +:+ String sep piece ∧
    ¬ occurs_in (String sep EmptyString) piece.
Proof.
induction s as [|c s IH].
- left. intros (before & after & H). by destruct before.
- destruct IH as [Hs|(dir & piece & -> & Hp)].
  + destruct (decide (c = sep)) as [->|Hc].
    * right. by exists EmptyString, s.
    * left. by apply no_char_cons.
  + right. by exists (String c dir), piece.
Qed.

Lemma replace_prefix s p r :
  String.prefix p s = true →
  Text.replace s p r =
  r +:+ String.substring (String.length p)
          (String.length s - String.length p) s.
Proof. intros H. destruct s; unfold Text.replace; by rewrite H. Qed.

Lemma starts_experiment_stage_run s :
  Str.startsWith ("stage_run_" +:+ s) "experiment_" = false.
Proof. reflexivity. Qed.

(** X21: for the id of a full run, [experiment_] followed by anything, the
    experiments page takes everything after the prefix as the
    timestamp. *)
Theorem full_run_timestamp ts :
  Pages.getExperimentTimestamp ("experiment_" +:+ ts) = ts.
Proof.
unfold Pages.getExperimentTimestamp, Str.startsWith.
rewrite prefix_append, replace_prefix by apply prefix_append.
rewrite string_length_app, Nat.add_comm, Nat.add_sub.
change (EmptyString +:+ ?x) with x.
rewrite <- (Nat.add_0_r (String.length "experiment_")) at 1.
by rewrite substring_app_skip, substring_all.
Qed.

(** X22: for a stage-run id [stage_run_<stage>_<date>_<time>], whatever
    the stage name, and for any other id that ends in an underscore, eight
    digits, an underscore and six digits, the experiments page takes
    [<date>_<time>] as the timestamp. *)
Theorem run_timestamp_extracted date time :
  ¬ occurs_in "_" date →
  ¬ occurs_in "_" time →
  (∀ stage,
     Pages.getExperimentTimestamp
       ("stage_run_" +:+ stage +:+ "_" +:+ date +:+ "_" +:+ time)
     = date +:+ "_" +:+ time) ∧
  (∀ name,
     Str.startsWith (name +:+ "_" +:+ date +:+ "_" +:+ time) "experiment_"
       = false →
     Str.startsWith (name +:+ "_" +:+ date +:+ "_" +:+ time) "stage_run_"
       = false →
     String.length date = 8 → Text.digits date = true →
     String.length time = 6 → Text.digits time = true →
     Pages.getExperimentTimestamp (name +:+ "_" +:+ date +:+ "_" +:+ time)
     = date +:+ "_" +:+ time).
Proof.
intros Hdate Htime. split.
- intros stage. unfold Pages.getExperimentTimestamp.
  rewrite starts_experiment_stage_run.
  unfold Str.startsWith at 1. rewrite prefix_append.
  assert ("stage_run_" +:+ stage +:+ "_" +:+ date +:+ "_" +:+ time =
          (("stage_run_" +:+ stage) +:+ String "_" date) +:+ String "_" time)
    as -> by (by rewrite !string_app_assoc).
  rewrite split_app_sep, (split_no_sep _ time Htime).
  rewrite split_app_sep, (split_no_sep _ date Hdate).
  set (parts := Text.split "_" ("stage_run_" +:+ stage)).
  rewrite <- app_assoc. unfold Text.slice_last. rewrite length_app.
  change (length ([date] ++ [time])) with 2.
  rewrite Nat.add_sub, drop_app_length. reflexivity.
- intros name He Hs Hld Hdd Hlt Hdt. unfold Pages.getExperimentTimestamp.
  rewrite He, Hs. unfold Text.match_timestamp.
  rewrite !string_length_app, Hld, Hlt. simpl String.length.
  replace (String.length name + (1 + (8 + (1 + 6))) - 16)
    with (String.length name + 0) by lia.
  replace (String.length name + (1 + (8 + (1 + 6))) - 15)
    with (String.length name + 1) by lia.
  replace (String.length name + (1 + (8 + (1 + 6))) - 7)
    with (String.length name + 9) by lia.
  replace (String.length name + (1 + (8 + (1 + 6))) - 6)
    with (String.length name + 10) by lia.
  rewrite !substring_app_skip.
  replace (16 <=? String.length name + (1 + (8 + (1 + 6)))) with true
    by (symmetry; apply Nat.leb_le; lia).
  do 8 (destruct date as [|? date]; [done|]). destruct date; [|done].
  do 6 (destruct time as [|? time]; [done|]). destruct time; [|done].
  cbv [String.append String.substring].
  rewrite Hdd, Hdt. reflexivity.
Qed.

Lemma run_timestamp_extracted_witness :
  Pages.getExperimentTimestamp "stage_run_idea_development_20240104_101500"
    = "20240104_101500" ∧
  Pages.getExperimentTimestamp "archive_20231231_235959" = "20231231_235959".
Proof.
assert (H1 : ¬ occurs_in "_" "20240104")
  by (rewrite <- includes_iff; by vm_compute).
assert (H2 : ¬ occurs_in "_" "101500")
  by (rewrite <- includes_iff; by vm_compute).
assert (H3 : ¬ occurs_in "_" "20231231")
  by (rewrite <- includes_iff; by vm_compute).
assert (H4 : ¬ occurs_in "_" "235959")
  by (rewrite <- includes_iff; by vm_compute).
split.
- exact (proj1 (run_timestamp_extracted "20240104" "101500" H1 H2)
           "idea_development").
- exact (proj2 (run_timestamp_extracted "20231231" "235959" H3 H4)
           "archive" eq_refl eq_refl eq_refl eq_refl eq_refl eq_refl).
Defined.

(** X23: a timestamp of the form [YYYYMMDD_HHMM...] is displayed as
    [YYYY-MM-DD HH:MM]; what follows the minutes is dropped. *)
Theorem timestamp_formatted year month day hour minute rest :
  String.length year = 4 → String.length month = 2 →
  String.length day = 2 →
  String.length hour = 2 → String.length minute = 2 →
  ¬ occurs_in "_" (year +:+ month +:+ day) →
  ¬ occurs_in "_" (hour +:+ minute) →
  Pages.formatTimestamp
    (year +:+ month +:+ day +:+ "_" +:+ hour +:+ minute +:+ rest)
  = year +:+ "-" +:+ month +:+ "-" +:+ day +:+ " " +:+ hour +:+ ":"
      +:+ minute.
Proof.
intros Hy Hm Hd Hh Hmi Hdate Htime. unfold Pages.formatTimestamp.
assert (year +:+ month +:+ day +:+ "_" +:+ hour +:+ minute +:+ rest =
        (year +:+ month +:+ day) +:+ String "_" ((hour +:+ minute) +:+ rest))
  as -> by (by rewrite !string_app_assoc).
rewrite split_app_sep, (split_no_sep _ _ Hdate).
destruct (split_app_no_sep "_" _ rest Htime) as (piece & pieces & _ & ->).
simpl app. cbv beta iota zeta.
assert (Text.slice 0 4 (year +:+ month +:+ day) = year) as ->.
{ trans (String.substring 0 (String.length year) (year +:+ month +:+ day));
    [by rewrite Hy|apply substring_prefix]. }
assert (Text.slice 4 6 (year +:+ month +:+ day) = month) as ->.
{ trans (String.substring (String.length year) (String.length month)
           (year +:+ month +:+ day));
    [by rewrite Hy, Hm|apply substring_middle]. }
assert (Text.slice 6 8 (year +:+ month +:+ day) = day) as ->.
{ trans (String.substring (String.length (year +:+ month))
           (String.length day) ((year +:+ month) +:+ day));
    [by rewrite string_length_app, string_app_assoc, Hy, Hm, Hd
    |apply substring_suffix]. }
assert (Text.slice 0 2 ((hour +:+ minute) +:+ piece) = hour) as ->.
{ rewrite string_app_assoc.
  trans (String.substring 0 (String.length hour)
           (hour +:+ minute +:+ piece));
    [by rewrite Hh|apply substring_prefix]. }
assert (Text.slice 2 4 ((hour +:+ minute) +:+ piece) = minute) as ->.
{ rewrite string_app_assoc.
  trans (String.substring (String.length hour) (String.length minute)
           (hour +:+ minute +:+ piece));
    [by rewrite Hh, Hmi|apply substring_middle]. }
reflexivity.
Qed.

Lemma timestamp_formatted_witness :
  Pages.formatTimestamp "20240104_101500" = "2024-01-04 10:15".
Proof.
apply (timestamp_formatted "2024" "01" "04" "10" "15" "00");
  try reflexivity; rewrite <- includes_iff; by vm_compute.
Defined.

(** X24: a timestamp without an underscore, the empty one included, is
    displayed as it is: the formatter falls into its [catch]. *)
Theorem timestamp_without_underscore_unchanged ts :
  ¬ occurs_in "_" ts → Pages.formatTimestamp ts = ts.
Proof.
intros H. unfold Pages.formatTimestamp. by rewrite (split_no_sep _ _ H).
Qed.

Lemma timestamp_without_underscore_unchanged_witness :
  Pages.formatTimestamp (Pages.getExperimentTimestamp "notes") = EmptyString.
Proof.
apply (timestamp_without_underscore_unchanged
         (Pages.getExperimentTimestamp "notes")).
rewrite <- includes_iff. by vm_compute.
Defined.

Lemma image_filename_last filepath name :
  Text.pop (Text.split "/" filepath) = Some name →
  Pages.image_filename filepath = name.
Proof.
intros H. unfold Pages.image_filename.
assert ((if truthy (VStr filepath) then filepath else EmptyString)
        = filepath) as -> by (by destruct filepath).
rewrite H. by destruct name.
Qed.

(** X25: the image link the prototype page builds for a stored path ends
    in what follows the last slash of the path, the whole path when it has
    no slash: the path is a directory part, empty or ending in a slash,
    followed by a name without a slash, and the link is
    [/api/experiments/<expId>/designs/<name>]. *)
Theorem image_link_basename expId filepath :
  ∃ dir name,
    filepath = dir +:+ name ∧
    (dir = EmptyString ∨ ∃ d, dir = d +:+ "/") ∧
    ¬ occurs_in "/" name ∧
    Pages.getImageUrl expId filepath =
    "/api/experiments/" +:+ expId +:+ "/designs/" +:+ name.
Proof.
unfold Pages.getImageUrl.
destruct (last_separator "/" filepath) as [H|(dir & piece & -> & H)].
- exists EmptyString, filepath. split_and!; [done|by left|done|].
  rewrite (image_filename_last _ filepath); [done|].
  by rewrite (split_no_sep _ _ H).
- exists (dir +:+ "/"), piece. split_and!.
  + by rewrite string_app_assoc.
  + right. by exists dir.
  + done.
  + rewrite (image_filename_last _ piece); [done|].
    rewrite split_app_sep, (split_no_sep _ _ H).
    unfold Text.pop. by rewrite last_snoc.
Qed.

End PageHelpers.

(** ** The experiments page: what it shows, and in which order *)

Section ExperimentsPage.

Lemma kind_eqb_eq a b : Pages.kind_eqb a b = true ↔ a = b.
Proof. destruct a, b; simpl; split; done. Qed.

Lemma elem_of_List_filter {A} (f : A → bool) l x :
  x ∈ List.filter f l ↔ x ∈ l ∧ f x = true.
Proof. by rewrite !list_elem_of_In, filter_In. Qed.

(** X26: the experiments page shows exactly the listed experiments of the
    chosen kind whose id contains the search text, ignoring case; with no
    kind chosen and no search text it shows all of them, each as often as
    listed; and under a consistent [localeCompare] it shows them by
    descending timestamp of the id, not in the order of the listing. *)
Theorem page_shows_filtered_by_timestamp
    localeCompare filterType searchQuery experiments :
  consistent localeCompare →
  (∀ e, e ∈ Pages.filteredExperiments localeCompare filterType searchQuery
              experiments ↔
        e ∈ experiments ∧
        (filterType = Pages.FilterAll ∨ filterType = Pages.FilterKind (type e)) ∧
        (searchQuery = EmptyString ∨
         occurs_in (Str.toLowerCase searchQuery) (Str.toLowerCase (id e)))) ∧
  (filterType = Pages.FilterAll → searchQuery = EmptyString →
   Pages.filteredExperiments localeCompare filterType searchQuery experiments
   ≡ₚ experiments) ∧
  StronglySorted
    (λ a b, (localeCompare (Pages.getExperimentTimestamp (id b))
                           (Pages.getExperimentTimestamp (id a)) <= 0)%Z)
    (Pages.filteredExperiments localeCompare filterType searchQuery
       experiments).
Proof.
intros [Htotal Htrans _]. unfold Pages.filteredExperiments. cbv zeta.
set (compareFn := λ a b : experiment,
  localeCompare (Pages.getExperimentTimestamp (id b))
                (Pages.getExperimentTimestamp (id a))).
split_and!.
- intros e. rewrite sort_Permutation.
  destruct (truthy (VStr searchQuery)) eqn:Hq.
  + assert (searchQuery ≠ EmptyString) by (by intros ->).
    rewrite elem_of_List_filter, includes_iff.
    destruct filterType as [|k].
    * split; [intros [? ?]|intros (? & _ & [?|?])];
        [split_and!; [done|by left|by right]|done|done].
    * rewrite elem_of_List_filter, kind_eqb_eq.
      split.
      -- intros [[? <-] ?]. split_and!; [done|by right|by right].
      -- intros (? & [?|[= ->]] & [?|?]); done.
  + apply truthy_string in Hq as ->.
    destruct filterType as [|k].
    * split; [intros ?; split_and!; [done|by left|by left]|by intros [? _]].
    * rewrite elem_of_List_filter, kind_eqb_eq.
      split.
      -- intros [? <-]. split_and!; [done|by right|by left].
      -- intros (? & [?|[= ->]] & _); done.
- intros -> ->. simpl. apply sort_Permutation.
- apply (sort_StronglySorted compareFn).
  + intros a b. apply Htotal.
  + intros a b c Hab Hbc. unfold Scanner.keeps_before, compareFn in *.
    by eapply Htrans.
Qed.

Lemma page_shows_filtered_by_timestamp_witness :
  StronglySorted
    (λ a b, (Collation.localeCompare
               (Pages.getExperimentTimestamp (id b))
               (Pages.getExperimentTimestamp (id a)) <= 0)%Z)
    (Pages.filteredExperiments Collation.localeCompare
       (Pages.FilterKind full) "2024" Fixtures.listing).
Proof.
apply (page_shows_filtered_by_timestamp Collation.localeCompare
         (Pages.FilterKind full) "2024" Fixtures.listing).
apply root_collation_consistent.
Defined.

End ExperimentsPage.

(** ** Test results: the listed summary and the document behind it *)

Section TestResults.

Lemma replace_json_suffix stem :
  ¬ occurs_in "." stem →
  Text.replace (stem +:+ ".json") ".json" EmptyString = stem.
Proof.
induction stem as [|c stem IH]; [done|].
intros [Hc Hs]%no_char_cons. rewrite string_app_cons.
cbn [Text.replace String.prefix].
destruct (ascii_dec "." c) as [<-|_]; [done|].
by rewrite (IH Hs).
Qed.

(** X27: the per-id test route answers with the stored document and an
    [id]: the document's own [id] when it has one, and the requested id
    only when it has none; every other property is as stored. *)
Theorem test_result_id h id0 data :
  Host.readJSON h [id0 +:+ ".json"] = Ok data →
  ∃ body,
    Tests.GET h id0 = (200, body) ∧
    get_prop body "id" = default (VStr id0) (own_props data !! "id") ∧
    ∀ k, k ≠ "id" → get_prop body k = get_prop data k.
Proof.
intros H. unfold Tests.GET. rewrite H.
eexists. split; [done|]. unfold get_prop. simpl. split.
- rewrite lookup_union. destruct (own_props data !! "id"); simpl; [done|].
  by rewrite lookup_singleton.
- intros k Hk. rewrite lookup_union, lookup_singleton_ne by done.
  by destruct (own_props data !! k).
Qed.

Lemma test_result_id_witness :
  ∃ body,
    Tests.GET Samples.test_results_host "pitch_deck_20240105" = (200, body) ∧
    get_prop body "id" = VStr "run-7" ∧
    ∀ k, k ≠ "id" → get_prop body k = get_prop Samples.test_result k.
Proof.
apply (test_result_id Samples.test_results_host "pitch_deck_20240105"
         Samples.test_result).
reflexivity.
Defined.

Lemma summary_of_plain_stem h stem :
  ¬ occurs_in "." stem →
  Tests.summary h (stem +:+ ".json") ≠ VNull →
  get_prop (Tests.summary h (stem +:+ ".json")) "id" = VStr stem ∧
  ∃ body,
    Tests.GET h stem = (200, body) ∧
    (∀ k, k ∈ ["stage_name"; "test_name"; "agent_name"; "test_type";
               "execution_time_ms"; "success"] →
          get_prop (Tests.summary h (stem +:+ ".json")) k = get_prop body k) ∧
    get_prop (Tests.summary h (stem +:+ ".json")) "timestamp"
      = js_or (get_prop body "timestamp") (get_prop body "timestamp_start").
Proof.
intros Hstem. unfold Tests.summary, Tests.GET.
destruct (Host.readJSON h [stem +:+ ".json"]) as [data|]; simpl; [|done].
unfold member. destruct (nullish data); simpl; [done|]. intros _.
rewrite (replace_json_suffix _ Hstem).
split; [done|]. eexists. split; [done|].
assert (Hbody : ∀ k, k ≠ "id" →
  get_prop (VObj (own_props data ∪ {["id" := VStr stem]})) k
  = get_prop data k).
{ intros k Hk. unfold get_prop. simpl.
  rewrite lookup_union, lookup_singleton_ne by done.
  by destruct (own_props data !! k). }
split.
- intros k Hk.
  repeat (apply elem_of_cons in Hk as [->|Hk]; [by rewrite Hbody|]).
  by apply elem_of_nil in Hk.
- by rewrite !Hbody.
Qed.

(** X28: a file the test listing keeps is a listed file [<stem>.json]
    without [latest] in its name.  When the stem has no dot and the file
    yields a summary, the summary has the id [<stem>], and the per-id
    route asked for that id serves the document of that file: the stage,
    test, agent, type, execution time and success of the summary are
    those of the document, and its timestamp is the document's
    [timestamp] or, when that is falsy, its [timestamp_start]. *)
Theorem listed_test_opens h files file :
  file ∈ Tests.jsonFiles files →
  file ∈ files ∧
  ¬ occurs_in "latest" file ∧
  ∃ stem,
    file = stem +:+ ".json" ∧
    (¬ occurs_in "." stem →
     Tests.summary h file ≠ VNull →
     get_prop (Tests.summary h file) "id" = VStr stem ∧
     ∃ body,
       Tests.GET h stem = (200, body) ∧
       (∀ k, k ∈ ["stage_name"; "test_name"; "agent_name"; "test_type";
                  "execution_time_ms"; "success"] →
             get_prop (Tests.summary h file) k = get_prop body k) ∧
       get_prop (Tests.summary h file) "timestamp"
         = js_or (get_prop body "timestamp")
                 (get_prop body "timestamp_start")).
Proof.
unfold Tests.jsonFiles. rewrite elem_of_List_filter.
intros [Hin [He Hl]%andb_true_iff]. split; [done|]. split.
- intros Hocc%includes_iff. by rewrite Hocc in Hl.
- apply endsWith_split in He as [stem ->]. exists stem. split; [done|].
  apply summary_of_plain_stem.
Qed.

Lemma listed_test_opens_witness :
  get_prop (Tests.summary Samples.test_results_host
              "pitch_deck_20240105.json") "id"
    = VStr "pitch_deck_20240105" ∧
  ∃ body,
    Tests.GET Samples.test_results_host "pitch_deck_20240105" = (200, body) ∧
    (∀ k, k ∈ ["stage_name"; "test_name"; "agent_name"; "test_type";
               "execution_time_ms"; "success"] →
          get_prop (Tests.summary Samples.test_results_host
                      "pitch_deck_20240105.json") k = get_prop body k) ∧
    get_prop (Tests.summary Samples.test_results_host
                "pitch_deck_20240105.json") "timestamp"
      = js_or (get_prop body "timestamp") (get_prop body "timestamp_start").
Proof.
assert (Hin : "pitch_deck_20240105.json"
              ∈ Tests.jsonFiles
                  ["latest.json"; "pitch_deck_20240105.json"; "notes.txt"]).
{ vm_compute. apply list_elem_of_here. }
destruct (listed_test_opens Samples.test_results_host _ _ Hin)
  as (_ & _ & stem & Heq & H).
apply (string_app_inv_r "pitch_deck_20240105" stem ".json") in Heq as <-.
apply H.
- rewrite <- includes_iff. by vm_compute.
- by vm_compute.
Defined.

End TestResults.

(** ** Truncation *)

Section DisplayFacts.

Lemma substring_length n s :
  String.length (String.substring 0 n s) = n `min` String.length s.
Proof.
revert s. induction n as [|n IH]; intros [|c s]; simpl; try done.
by rewrite IH.
Qed.

Lemma substring_is_prefix n s :
  String.prefix (String.substring 0 n s) s = true.
Proof.
revert s. induction n as [|n IH]; intros [|c s]; simpl; try done.
destruct (ascii_dec c c); [apply IH|done].
Qed.

(** X29: with a limit of at least 3, [truncate] returns a text within the
    limit: the text itself when it fits, and otherwise its first
    [maxLength - 3] code units followed by three dots. *)
Theorem truncate_within_limit text maxLength :
  (3 <= maxLength)%Z →
  (Z.of_nat (String.length (Display.truncate text maxLength)) <= maxLength)%Z ∧
  ((Z.of_nat (String.length text) <= maxLength)%Z →
   Display.truncate text maxLength = text) ∧
  ((maxLength < Z.of_nat (String.length text))%Z →
   ∃ kept,
     Display.truncate text maxLength = kept +:+ "..." ∧
     String.prefix kept text = true ∧
     Z.of_nat (String.length kept) = (maxLength - 3)%Z).
Proof.
intros Hmax. unfold Display.truncate, Display.slice_to.
destruct (Z.leb_spec (Z.of_nat (String.length text)) maxLength) as [Hfit|Hlong].
- split_and!; [done|done|lia].
- destruct (Z.ltb_spec (maxLength - 3) 0) as [?|_]; [lia|].
  assert (Hlen : String.length
            (String.substring 0
               (Z.to_nat ((maxLength - 3) `min` Z.of_nat (String.length text)))
               text) = Z.to_nat (maxLength - 3))
    by (rewrite substring_length; lia).
  split_and!.
  + rewrite string_length_app, Hlen. simpl. lia.
  + lia.
  + intros _. eexists. split; [done|]. split; [apply substring_is_prefix|].
    rewrite Hlen. lia.
Qed.

Lemma truncate_within_limit_witness :
  (Z.of_nat (String.length (Display.truncate "Parking for everyone" 10))
   <= 10)%Z ∧
  Display.truncate "Parking for everyone" 10 = "Parking...".
Proof.
split; [|reflexivity].
apply (truncate_within_limit "Parking for everyone" 10). lia.
Defined.

(** X30: with a limit below 3, [truncate] returns a text longer than the
    limit whenever the text itself is: the three dots alone exceed it,
    and the result has [text.length + maxLength] code units, or 3 when
    that is less. *)
Theorem truncate_exceeds_small_limit text maxLength :
  (maxLength < 3)%Z →
  (maxLength < Z.of_nat (String.length text))%Z →
  (maxLength < Z.of_nat (String.length (Display.truncate text maxLength)))%Z ∧
  Z.of_nat (String.length (Display.truncate text maxLength))
  = Z.max (Z.of_nat (String.length text) + maxLength) 3.
Proof.
intros Hmax Hlong. unfold Display.truncate, Display.slice_to.
destruct (Z.leb_spec (Z.of_nat (String.length text)) maxLength) as [?|_];
  [lia|].
destruct (Z.ltb_spec (maxLength - 3) 0) as [_|?]; [|lia].
rewrite string_length_app, substring_length. simpl. lia.
Qed.

Lemma truncate_exceeds_small_limit_witness :
  (2 < Z.of_nat (String.length (Display.truncate "Parking" 2)))%Z ∧
  Z.of_nat (String.length (Display.truncate "Parking" 2))
  = Z.max (Z.of_nat (String.length "Parking") + 2) 3.
Proof.
apply (truncate_exceeds_small_limit "Parking" 2); simpl; lia.
Defined.

End DisplayFacts.
